(** * asim: a fixed-step pump / pipe / tank simulator

    Shallow embedding of [asim.c] and the properties of its hydraulic
    kernel, its tank integrator and its simulation loop.

    The C program computes on [double].  The embedding keeps that: a
    [double] is an IEEE 754 binary64 datum ([spec_float] at precision 53
    and maximal exponent 1024), every arithmetic operator of the source is
    the correctly rounded operation of the standard library's executable
    specification, and the comparisons are the IEEE ones (a comparison
    that involves a NaN is false). *)

From Stdlib Require Import ZArith Bool List String Lia.
From Stdlib Require Import QArith Qround.
From Stdlib Require Import Floats.SpecFloat.
Import ListNotations.

Set Implicit Arguments.

(** ** IEEE 754 binary64 *)

Module Double.

Definition prec : Z := 53.
Definition emax : Z := 1024.

Definition double : Type := spec_float.

Definition add : double -> double -> double := SFadd prec emax.
Definition mul : double -> double -> double := SFmul prec emax.
Definition div : double -> double -> double := SFdiv prec emax.

(** C's [x < y] and [x > y] on doubles. *)
Definition lt (x y : double) : bool := SFltb x y.
Definition gt (x y : double) : bool := SFltb y x.
(** C's [x <= y]; not the negation of [gt] when a NaN is around. *)
Definition le (x y : double) : bool := SFleb x y.

(** The double nearest to an integer: the conversion C applies to an
    [int] operand of a [double] operation and to an integral literal. *)
Definition of_Z (n : Z) : double := binary_normalize prec emax n 0 false.

(** The decimal literal [n]e-[k], for [n] and [10^k] below 2^53: the
    quotient of two exactly represented integers, rounded once. *)
Definition decimal (n : Z) (k : nat) : double :=
  div (of_Z n) (of_Z (10 ^ Z.of_nat k)).

Definition nan : double := S754_nan.
Definition pinf : double := S754_infinity false.
Definition zero : double := S754_zero false.

Definition is_nan (x : double) : bool :=
  match x with S754_nan => true | _ => false end.

Definition is_zero (x : double) : bool :=
  match x with S754_zero _ => true | _ => false end.

Definition is_finite (x : double) : bool :=
  match x with S754_zero _ | S754_finite _ _ _ => true | _ => false end.

(** Not below zero: a zero of either sign, a positive number, plus
    infinity, or NaN. *)
Definition not_negative (x : double) : bool :=
  match x with
  | S754_infinity s | S754_finite s _ _ => negb s
  | S754_zero _ | S754_nan => true
  end.

(** Sign bit clear, or NaN: [not_negative] without the negative zero,
    whose reciprocal is minus infinity. *)
Definition sign_clear (x : double) : bool :=
  match x with
  | S754_zero s | S754_infinity s | S754_finite s _ _ => negb s
  | S754_nan => true
  end.

(** The rational a finite double stands for (0 for the others). *)
Definition to_Q (x : double) : Q :=
  match x with
  | S754_finite s m e =>
      let v := match e with
               | Zneg p => Zpos m # Pos.pow 2 p
               | _ => inject_Z (Zpos m * 2 ^ e)
               end in
      if s then Qopp v else v
  | _ => 0%Q
  end.

Declare Scope double_scope.
Delimit Scope double_scope with double.
Bind Scope double_scope with double.
Infix "+" := add : double_scope.
Infix "*" := mul : double_scope.
Infix "/" := div : double_scope.
Infix "<" := lt : double_scope.
Infix ">" := gt : double_scope.
Infix "<=" := le : double_scope.

End Double.

Import Double.
Local Open Scope double_scope.

(** ** Constants *)

(** [#define GRAVITY 9.81] *)
Definition GRAVITY : double := decimal 981 2.

(** Modelled from the spec: [M_PI] comes from [<math.h>], which is not part
    of the sources; it is the double nearest to pi (the spec's "A = pi
    (D/2)^2"), 0x1.921FB54442D18p+1. *)
Definition M_PI : double := S754_finite false 7074237752028440 (-51).

(** ** Records *)

Record Pump : Type := mkPump {
  flow_rate : double;   (* Pump flow rate (m3/s) *)
  head : double;        (* Pump head (m) *)
  power : double        (* Pump power required (W) *)
}.

Record Pipe : Type := mkPipe {
  length : double;      (* Pipe length (m) *)
  diameter : double;    (* Pipe diameter (m) *)
  roughness : double;   (* Pipe roughness (dimensionless) *)
  velocity : double;    (* Velocity of water in the pipe (m/s) *)
  density : double      (* Liquid density (kg/m3) *)
}.

Record Tank : Type := mkTank {
  height : double;      (* Tank height (m) *)
  radius : double;      (* Tank radius (m) *)
  water_level : double  (* Current water level (m) *)
}.

(** ** Hydraulics kernel: the pure part *)

(** [double calculate_friction_factor(double reynolds_number)] *)
Definition calculate_friction_factor (reynolds_number : double) : double :=
  if reynolds_number < of_Z 2000 then
    of_Z 64 / reynolds_number
  else
    decimal 2 2.

(** ** The machine state

    Every function of the source receives the records through pointers and
    [main] owns exactly one record of each type, so the state holds one
    [Pump], one [Pipe] and one [Tank].  [stdout] is the sequence of
    [printf] calls made so far, each with its format string and its
    arguments; [host] is whatever [usleep] acts on (the wall clock, the
    scheduler), of a type the program cannot look into. *)

(** A format string is kept as the source spells it, escape sequences
    included. *)
Inductive printf_call : Type :=
| Printf0 (format : string)
| Printf4 (format : string) (a b c d : double).

Definition no_flow_text : string :=
  "Pump cannot overcome the head loss. No flow occurs.\n".

Definition overflow_text : string :=
  "Tank is full! Overflow occurs.\n".

Section Machine.

Variable Host : Type.

(** [<unistd.h>]'s [usleep], composed with the conversion of its
    [double] argument to [useconds_t]. *)
Variable usleep : double -> Host -> Host.

(** [<math.h>]'s [pow]. *)
Variable pow : double -> double -> double.

Record World : Type := mkWorld {
  pump : Pump;
  pipe : Pipe;
  tank : Tank;
  stdout : list printf_call;
  host : Host
}.

(** A computation that reads and writes the machine state. *)
Definition M (A : Type) : Type := World -> A * World.

Definition ret {A} (a : A) : M A := fun w => (a, w).

Definition bind {A B} (m : M A) (k : A -> M B) : M B :=
  fun w => let (a, w') := m w in k a w'.

Definition gets {A} (f : World -> A) : M A := fun w => (f w, w).

Definition modify (f : World -> World) : M unit := fun w => (tt, f w).

Definition exec {A} (m : M A) (w : World) : World := snd (m w).

Definition eval {A} (m : M A) (w : World) : A := fst (m w).

Notation "x <- m ;; k" := (bind m (fun x => k))
  (at level 61, m at next level, right associativity).
Notation "m ;;; k" := (bind m (fun _ => k))
  (at level 61, right associativity).

(** Field writes. *)
Definition set_velocity (v : double) : M unit :=
  modify (fun w =>
    let p := pipe w in
    mkWorld (pump w)
            (mkPipe (length p) (diameter p) (roughness p) v (density p))
            (tank w) (stdout w) (host w)).

Definition set_water_level (h : double) : M unit :=
  modify (fun w =>
    let t := tank w in
    mkWorld (pump w) (pipe w) (mkTank (height t) (radius t) h)
            (stdout w) (host w)).

Definition set_power (p : double) : M unit :=
  modify (fun w =>
    let q := pump w in
    mkWorld (mkPump (flow_rate q) (head q) p) (pipe w) (tank w)
            (stdout w) (host w)).

Definition printf (c : printf_call) : M unit :=
  modify (fun w =>
    mkWorld (pump w) (pipe w) (tank w) (stdout w ++ [c]) (host w)).

Definition do_usleep (d : double) : M unit :=
  modify (fun w =>
    mkWorld (pump w) (pipe w) (tank w) (stdout w) (usleep d (host w))).

(** ** Hydraulics kernel *)

(** [double calculate_head_loss(Pipe *pipe, double flow_rate)] *)
Definition calculate_head_loss (flow_rate : double) : M double :=
  d <- gets (fun w => diameter (pipe w)) ;;
  let area := M_PI * pow (d / of_Z 2) (of_Z 2) in
  set_velocity (flow_rate / area) ;;;
  rho <- gets (fun w => density (pipe w)) ;;
  v <- gets (fun w => velocity (pipe w)) ;;
  d <- gets (fun w => diameter (pipe w)) ;;
  let reynolds_number := (rho * v * d) / decimal 1 3 in
  let friction_factor := calculate_friction_factor reynolds_number in
  l <- gets (fun w => length (pipe w)) ;;
  ret (friction_factor * (l / d) * pow v (of_Z 2) / (of_Z 2 * GRAVITY)).

(** [double calculate_pump_power(Pump *pump, Pipe *pipe)] *)
Definition calculate_pump_power : M double :=
  rho <- gets (fun w => density (pipe w)) ;;
  q <- gets (fun w => flow_rate (pump w)) ;;
  h <- gets (fun w => head (pump w)) ;;
  ret (rho * GRAVITY * q * h).

(** ** Tank integrator *)

(** The two notices of [update_tank]. *)
Definition no_flow_notice : printf_call := Printf0 no_flow_text.

Definition overflow_notice : printf_call := Printf0 overflow_text.

(** [void update_tank(Tank *tank, Pump *pump, Pipe *pipe, double time_step)] *)
Definition update_tank (time_step : double) : M unit :=
  q <- gets (fun w => flow_rate (pump w)) ;;
  head_loss <- calculate_head_loss q ;;
  h <- gets (fun w => head (pump w)) ;;
  if h < head_loss then
    printf no_flow_notice
  else
    effective_flow_rate <- gets (fun w => flow_rate (pump w)) ;;
    r <- gets (fun w => radius (tank w)) ;;
    let tank_area := M_PI * pow r (of_Z 2) in
    level <- gets (fun w => water_level (tank w)) ;;
    set_water_level (level + (effective_flow_rate / tank_area) * time_step) ;;;
    level <- gets (fun w => water_level (tank w)) ;;
    top <- gets (fun w => height (tank w)) ;;
    (if level > top then
       set_water_level top ;;;
       printf overflow_notice
     else ret tt) ;;;
    p <- calculate_pump_power ;;
    set_power p.

(** ** Simulation driver *)

(** The two header lines and the format of an observation line. *)
Definition header_titles : printf_call :=
  Printf0 "Time(s)   Water Level(m)   Flow Rate(m³/s)   Pump Power(W)\n".

Definition header_rule : printf_call :=
  Printf0 "---------------------------------------------------------\n".

Definition row_format : string :=
  "%.2f       %.4f          %.4f          %.2f\n".

(** One pass through the body of the [while] loop of [simulate_system];
    the value is [current_time] after the increment. *)
Definition loop_body (time_step current_time : double) : M double :=
  update_tank time_step ;;;
  level <- gets (fun w => water_level (tank w)) ;;
  q <- gets (fun w => flow_rate (pump w)) ;;
  p <- gets (fun w => power (pump w)) ;;
  printf (Printf4 row_format current_time level q p) ;;;
  let current_time := current_time + time_step in
  do_usleep (time_step * of_Z 1000000) ;;;
  ret current_time.

(** The [while (current_time < simulation_duration)] loop.  C gives no
    bound on its number of iterations, so the embedding counts them down
    from [fuel] and answers [None] when they run out. *)
Fixpoint simulate_loop (fuel : nat)
    (simulation_duration time_step current_time : double) (w : World)
    : option World :=
  match fuel with
  | O => None
  | S fuel' =>
      if current_time < simulation_duration then
        let (t', w') := loop_body time_step current_time w in
        simulate_loop fuel' simulation_duration time_step t' w'
      else Some w
  end.

(** [void simulate_system(Pump *pump, Pipe *pipe, Tank *tank,
                          double simulation_duration, double time_step)] *)
Definition simulate_system (fuel : nat)
    (simulation_duration time_step : double) (w : World) : option World :=
  let current_time := zero in
  let w := exec (printf header_titles ;;; printf header_rule) w in
  simulate_loop fuel simulation_duration time_step current_time w.

(** The three records [main] initialises. *)
Definition main_pump : Pump :=
  mkPump (decimal 1 2) (of_Z 10) zero.

Definition main_pipe : Pipe :=
  mkPipe (of_Z 50) (decimal 1 1) (decimal 15 3) zero (of_Z 1000).

Definition main_tank : Tank :=
  mkTank (of_Z 5) (of_Z 1) zero.

(** [int main()]: the records and the two parameters are compiled in;
    the value is the exit status. *)
Definition main (fuel : nat) (h : Host) : option (Z * World) :=
  let w := mkWorld main_pump main_pipe main_tank [] h in
  let simulation_duration := of_Z 60 in
  let time_step := of_Z 1 in
  let w := exec (printf (Printf0 "Starting real-time tank filling simulation...\n")) w in
  match simulate_system fuel simulation_duration time_step w with
  | None => None
  | Some w =>
      let w := exec (printf (Printf0 "Simulation complete.\n")) w in
      Some (0%Z, w)
  end.

End Machine.

Arguments mkWorld {Host} _ _ _ _ _.
Arguments pump {Host} _.
Arguments pipe {Host} _.
Arguments tank {Host} _.
Arguments stdout {Host} _.
Arguments host {Host} _.

(** ** An instance of [pow] *)

(** Modelled from the spec: [pow] comes from [<math.h>], which is not part
    of the sources.  The program calls it with the exponent 2 only, where
    the spec reads a square ("A = pi (D/2)^2", "v^2", "A_t = pi r^2"): the
    square rounded once, which is also what a compiler emits for
    [pow(x, 2)].  Other exponents are outside the model. *)
Definition pow_square (x y : double) : double :=
  match SFcompare y (of_Z 2) with
  | Some Eq => x * x
  | _ => nan
  end.

(** A sleeper that does nothing, on a host with no state. *)
Definition no_sleep (d : double) (h : unit) : unit := h.


(** ** Closed forms used in the statements *)

(** The pipe's cross-section and the head loss as functions of the four
    numbers they are computed from. *)
Definition pipe_area (pow : double -> double -> double) (D : double) : double :=
  M_PI * pow (D / of_Z 2) (of_Z 2).

Definition darcy_weisbach (pow : double -> double -> double)
    (L D rho Q : double) : double :=
  let v := Q / pipe_area pow D in
  let Re := (rho * v * D) / decimal 1 3 in
  let f := calculate_friction_factor Re in
  f * (L / D) * pow v (of_Z 2) / (of_Z 2 * GRAVITY).

(** The state with [pipe.velocity] overwritten and nothing else touched. *)
Definition with_velocity {Host} (v : double) (w : World Host) : World Host :=
  mkWorld (pump w)
    (mkPipe (length (pipe w)) (diameter (pipe w)) (roughness (pipe w)) v
            (density (pipe w)))
    (tank w) (stdout w) (host w).

Definition with_stdout {Host} (out : list printf_call) (w : World Host)
    : World Host :=
  mkWorld (pump w) (pipe w) (tank w) out (host w).


(** ** States used as concrete inputs *)

(** The records of [main], on a host with no state. *)
Definition main_world : World unit :=
  mkWorld main_pump main_pipe main_tank [] tt.

(** The same with the pump switched off: [flow_rate = 0.0]. *)
Definition idle_world : World unit :=
  mkWorld (mkPump zero (of_Z 10) zero) main_pipe main_tank [] tt.

(** A pump that delivers nothing into a tank of radius 2^-600 m, whose
    square is below the smallest positive double. *)
Definition thin_tank_world : World unit :=
  mkWorld (mkPump zero (of_Z 10) zero) main_pipe
          (mkTank (of_Z 5) (S754_finite false 4503599627370496 (-652)) zero)
          [] tt.

(** Scenario S3 of the spec: the pump of [main] with [head = 0.01]. *)
Definition weak_pump_world : World unit :=
  mkWorld (mkPump (decimal 1 2) (decimal 1 2) zero) main_pipe main_tank [] tt.

(** The tank's cross-section and the level [update_tank] computes before
    it looks at the tank's height. *)
Definition tank_area (pow : double -> double -> double) (r : double) : double :=
  M_PI * pow r (of_Z 2).

Definition level_increment {Host} (pow : double -> double -> double)
    (time_step : double) (w : World Host) : double :=
  (flow_rate (pump w) / tank_area pow (radius (tank w))) * time_step.

Definition raised_level {Host} (pow : double -> double -> double)
    (time_step : double) (w : World Host) : double :=
  water_level (tank w) + level_increment pow time_step w.

(** The head loss [update_tank] compares the pump's head with. *)
Definition head_loss_now {Host} (pow : double -> double -> double)
    (w : World Host) : double :=
  eval (calculate_head_loss pow (flow_rate (pump w))) w.

(** The three ways a call of [update_tank] can end, as states. *)
Definition after_no_flow {Host} (pow : double -> double -> double)
    (w : World Host) : World Host :=
  let w1 := with_velocity
              (flow_rate (pump w) / pipe_area pow (diameter (pipe w))) w in
  with_stdout (stdout w ++ [no_flow_notice]) w1.

Definition after_flow {Host} (pow : double -> double -> double)
    (level : double) (out : list printf_call) (w : World Host) : World Host :=
  let q := pump w in
  let p := pipe w in
  let t := tank w in
  mkWorld
    (mkPump (flow_rate q) (head q)
            (density p * GRAVITY * flow_rate q * head q))
    (mkPipe (length p) (diameter p) (roughness p)
            (flow_rate q / pipe_area pow (diameter p)) (density p))
    (mkTank (height t) (radius t) level)
    out (host w).

(** ** Reading the output *)

(** The observation lines are the [printf] calls with four arguments, the
    notices are the two messages of [update_tank]. *)
Definition is_row (c : printf_call) : bool :=
  match c with
  | Printf4 _ _ _ _ _ => true
  | Printf0 _ => false
  end.

Definition is_notice (c : printf_call) : bool :=
  match c with
  | Printf0 s => String.eqb s no_flow_text || String.eqb s overflow_text
  | Printf4 _ _ _ _ _ => false
  end.

Definition observation_lines (out : list printf_call) : nat :=
  List.length (filter is_row out).

(** The bytes of the output, for a formatter [vprintf] that turns a format
    and its arguments into text. *)
Definition render (vprintf : string -> list double -> string)
    (out : list printf_call) : string :=
  String.concat ""
    (map (fun c =>
            match c with
            | Printf0 f => vprintf f []
            | Printf4 f a b c d => vprintf f [a; b; c; d]
            end) out).

(** [current_time] after [n] more passes through the loop: [time_step]
    added [n] times to [t], each sum rounded. *)
Fixpoint clock (time_step t : double) (n : nat) : double :=
  match n with
  | O => t
  | S n' => clock time_step (t + time_step) n'
  end.

(** The part of the state the program can read: the host is forgotten. *)
Definition observe {Host} (w : World Host) : World unit :=
  mkWorld (pump w) (pipe w) (tank w) (stdout w) tt.

(** ** The invariant of the water level *)

(** [0 <= tank.water_level <= tank.height]. *)
Definition within_tank {Host} (w : World Host) : Prop :=
  (zero <= water_level (tank w)) = true /\
  (water_level (tank w) <= height (tank w)) = true.

(** What a tick needs for the invariant: a flow rate that is not below
    zero, a positive time step, and an increment [(Q / A_t) * time_step]
    that is a number, [pow] giving a square whose sign bit is clear. *)
Definition steady_inflow {Host} (pow : double -> double -> double)
    (time_step : double) (w : World Host) : Prop :=
  (zero <= flow_rate (pump w)) = true /\
  (zero < time_step) = true /\
  sign_clear (pow (radius (tank w)) (of_Z 2)) = true /\
  is_nan (level_increment pow time_step w) = false.

(** Every observation line reports a level between 0 and [top]. *)
Definition rows_within (top : double) (out : list printf_call) : Prop :=
  Forall (fun c =>
            match c with
            | Printf4 _ _ level _ _ =>
                (zero <= level) = true /\ (level <= top) = true
            | Printf0 _ => True
            end) out.

(** ** The exact value of a double *)

(** A valid finite double is a whole number of units of 2^-1074, the
    smallest positive double. *)
Definition scaled (x : double) : Z :=
  match x with
  | S754_finite s m e =>
      let v := (Z.pos m * 2 ^ (e + 1074))%Z in
      if s then (- v)%Z else v
  | _ => 0%Z
  end.

(** A double that stands for a number and is in canonical form, as every
    value of a C [double] that is not an infinity or a NaN is. *)
Definition finite_valid (x : double) : Prop :=
  is_finite x = true /\ valid_binary prec emax x = true.

(** ** More readings of the state and of the output *)

(** The fields that are set when the records are built and that no
    function of the program assigns afterwards. *)
Definition same_parameters {Host1 Host2}
    (w : World Host1) (w' : World Host2) : Prop :=
  flow_rate (pump w') = flow_rate (pump w) /\
  head (pump w') = head (pump w) /\
  length (pipe w') = length (pipe w) /\
  diameter (pipe w') = diameter (pipe w) /\
  roughness (pipe w') = roughness (pipe w) /\
  density (pipe w') = density (pipe w) /\
  height (tank w') = height (tank w) /\
  radius (tank w') = radius (tank w).

Definition is_no_flow (c : printf_call) : bool :=
  match c with
  | Printf0 s => String.eqb s no_flow_text
  | Printf4 _ _ _ _ _ => false
  end.

(** The first and the third column of the observation lines. *)
Definition row_times (out : list printf_call) : list double :=
  flat_map (fun c =>
              match c with
              | Printf4 _ t _ _ _ => [t]
              | Printf0 _ => []
              end) out.

Definition row_flow_rates (out : list printf_call) : list double :=
  flat_map (fun c =>
              match c with
              | Printf4 _ _ _ q _ => [q]
              | Printf0 _ => []
              end) out.

(** Below zero or a zero: what [x <= 0.0] holds of. *)
Definition not_positive (x : double) : bool :=
  match x with
  | S754_infinity s | S754_finite s _ _ => s
  | S754_zero _ => true
  | S754_nan => false
  end.

Definition no_flow_lines (out : list printf_call) : nat :=
  List.length (filter is_no_flow out).

(** The number of passes the [while] loop of [simulate_system] makes from
    the clock value [t]: its condition reads the clock and the duration
    and nothing else.  [None] when the fuel does not reach the end. *)
Fixpoint passes (fuel : nat) (duration time_step t : double) : option nat :=
  match fuel with
  | O => None
  | S fuel' =>
      if t < duration then
        option_map S (passes fuel' duration time_step (t + time_step))
      else Some O
  end.

(** A sleeper that writes down what it is asked for. *)
Definition recording_sleep (d : double) (h : list double) : list double :=
  h ++ [d].

(** The records of [main], on a host that keeps the record of the sleeps. *)
Definition main_world_recording : World (list double) :=
  mkWorld main_pump main_pipe main_tank [] [].

(** The records of [main] with the tank already full. *)
Definition full_tank_world : World unit :=
  mkWorld main_pump main_pipe (mkTank (of_Z 5) (of_Z 1) (of_Z 5)) [] tt.

(** The second column of the observation lines. *)
Definition row_levels (out : list printf_call) : list double :=
  flat_map (fun c =>
              match c with
              | Printf4 _ _ level _ _ => [level]
              | Printf0 _ => []
              end) out.

(** Each element is [<=] the next one. *)
Fixpoint nondecreasing (l : list double) : Prop :=
  match l with
  | [] => True
  | x :: l' =>
      match l' with
      | [] => True
      | y :: _ => (x <= y) = true /\ nondecreasing l'
      end
  end.

(** The level, the height and the increment of a tick are canonical
    doubles, as every value a C program computes is. *)
Definition canonical_levels {Host} (pow : double -> double -> double)
    (time_step : double) (w : World Host) : Prop :=
  valid_binary prec emax (water_level (tank w)) = true /\
  valid_binary prec emax (height (tank w)) = true /\
  valid_binary prec emax (level_increment pow time_step w) = true.
(** * Facts about binary64 arithmetic *)

Section DoubleFacts.

Lemma compare_antisym (x y : double) :
  SFcompare y x = option_map CompOpp (SFcompare x y).
Proof.
  destruct x as [sx|sx| |sx mx ex], y as [sy|sy| |sy my ey]; simpl;
    try reflexivity;
    try (destruct sx; reflexivity); try (destruct sy; reflexivity);
    try (destruct sx, sy; reflexivity).
  change (Pos.compare_cont Eq my mx) with (Pos.compare my mx).
  change (Pos.compare_cont Eq mx my) with (Pos.compare mx my).
  rewrite (Z.compare_antisym ex ey), (Pos.compare_antisym mx my).
  destruct sx, sy; simpl; try reflexivity;
    destruct (Z.compare ex ey); simpl; try reflexivity;
    destruct (Pos.compare mx my); reflexivity.
Qed.

Lemma lt_irrefl (x : double) : (x < x) = false.
Proof.
  unfold lt, SFltb.
  destruct x as [s|s| |s m e]; simpl; try reflexivity.
  - destruct s; reflexivity.
  - change (Pos.compare_cont Eq m m) with (Pos.compare m m).
    rewrite Z.compare_refl, Pos.compare_refl. destruct s; reflexivity.
Qed.

(** [x <= y] rules out [y < x]. *)
Lemma le_not_gt (x y : double) : (x <= y) = true -> (y < x) = false.
Proof.
  unfold le, lt, SFleb, SFltb. rewrite (compare_antisym x y).
  destruct (SFcompare x y) as [[ | | ]|]; simpl; congruence.
Qed.

Lemma compare_total (x y : double) :
  is_nan x = false -> is_nan y = false -> exists c, SFcompare x y = Some c.
Proof.
  destruct x, y; simpl; try discriminate; intros _ _; eexists; reflexivity.
Qed.

(** Without a NaN the order is total. *)
Lemma not_gt_le (x y : double) :
  is_nan x = false -> is_nan y = false -> (y < x) = false -> (x <= y) = true.
Proof.
  intros Hx Hy. destruct (compare_total x y Hx Hy) as [c Hc].
  unfold le, lt, SFleb, SFltb. rewrite (compare_antisym x y), Hc.
  destruct c; simpl; congruence.
Qed.

Lemma le_zero_iff (x : double) :
  (zero <= x) = true <-> is_nan x = false /\ not_negative x = true.
Proof.
  unfold le, SFleb, zero.
  destruct x as [s|s| |s m e]; simpl; try (destruct s; simpl);
    intuition congruence.
Qed.

Lemma lt_zero_not_negative (x : double) :
  (zero < x) = true -> is_nan x = false /\ not_negative x = true.
Proof.
  unfold lt, SFltb, zero.
  destruct x as [s|s| |s m e]; simpl; try (destruct s; simpl);
    intuition congruence.
Qed.

(** Rounding keeps the sign it is given. *)
Lemma round_aux_sign (s : bool) (m e : Z) (l : location) :
  match binary_round_aux prec emax s m e l with
  | S754_zero s' | S754_infinity s' | S754_finite s' _ _ => s' = s
  | S754_nan => True
  end.
Proof.
  unfold binary_round_aux.
  destruct (shr_fexp prec emax m e l) as [mrs' e'].
  destruct (shr_fexp prec emax _ e' loc_Exact) as [mrs'' e''].
  destruct (shr_m mrs''); auto.
  destruct (Z.leb e'' (emax - prec)); reflexivity.
Qed.

Lemma round_aux_not_negative (m e : Z) (l : location) :
  not_negative (binary_round_aux prec emax false m e l) = true.
Proof.
  generalize (round_aux_sign false m e l).
  destruct (binary_round_aux prec emax false m e l); simpl;
    intros H; try rewrite H; reflexivity.
Qed.

Lemma mul_not_negative (x y : double) :
  not_negative x = true -> not_negative y = true ->
  not_negative (x * y) = true.
Proof.
  destruct x as [sx|sx| |sx mx ex], y as [sy|sy| |sy my ey]; simpl;
    try reflexivity; intros Hx Hy;
    try (apply negb_true_iff in Hx; subst sx);
    try (apply negb_true_iff in Hy; subst sy);
    try reflexivity.
  apply round_aux_not_negative.
Qed.

Lemma mul_sign_clear (x y : double) :
  sign_clear x = true -> sign_clear y = true -> sign_clear (x * y) = true.
Proof.
  destruct x as [sx|sx| |sx mx ex], y as [sy|sy| |sy my ey]; simpl;
    try reflexivity; intros Hx Hy;
    apply negb_true_iff in Hx; apply negb_true_iff in Hy; subst sx sy;
    try reflexivity.
  generalize (round_aux_sign false (Z.pos (mx * my)) (ex + ey) loc_Exact).
  simpl. destruct (binary_round_aux _ _ _ _ _ _); simpl;
    intros H; try rewrite H; reflexivity.
Qed.

Lemma div_not_negative (x y : double) :
  not_negative x = true -> sign_clear y = true ->
  not_negative (x / y) = true.
Proof.
  destruct x as [sx|sx| |sx mx ex], y as [sy|sy| |sy my ey]; simpl;
    try reflexivity; intros Hx Hy;
    try (apply negb_true_iff in Hx; subst sx);
    try (apply negb_true_iff in Hy; subst sy);
    try reflexivity.
  destruct (SFdiv_core_binary prec emax (Z.pos mx) ex (Z.pos my) ey)
    as [[mz ez] lz].
  apply round_aux_not_negative.
Qed.

(** Shifting and rounding a mantissa that is not negative never leaves
    a negative one, so rounding it never ends in the NaN case. *)
Lemma shr_1_nonneg (mrs : shr_record) :
  (0 <= shr_m mrs)%Z -> (0 <= shr_m (shr_1 mrs))%Z.
Proof.
  destruct mrs as [m r t]; simpl.
  destruct m as [|p|p]; simpl; intros H; try lia;
    destruct p; simpl; lia.
Qed.

Lemma iter_shr_1_nonneg (p : positive) (mrs : shr_record) :
  (0 <= shr_m mrs)%Z -> (0 <= shr_m (iter_pos shr_1 p mrs))%Z.
Proof.
  revert mrs. induction p as [p IH|p IH|]; simpl; intros mrs H.
  - apply IH, IH, shr_1_nonneg, H.
  - apply IH, IH, H.
  - apply shr_1_nonneg, H.
Qed.

Lemma shr_fexp_nonneg (m e : Z) (l : location) :
  (0 <= m)%Z -> (0 <= shr_m (fst (shr_fexp prec emax m e l)))%Z.
Proof.
  intros H. unfold shr_fexp, shr.
  assert (H0 : (0 <= shr_m (shr_record_of_loc m l))%Z)
    by (destruct l as [|[ | | ]]; exact H).
  destruct (fexp prec emax (Zdigits2 m + e) - e)%Z; simpl; auto.
  apply iter_shr_1_nonneg, H0.
Qed.

Lemma round_nearest_even_nonneg (m : Z) (l : location) :
  (0 <= m)%Z -> (0 <= round_nearest_even m l)%Z.
Proof.
  intros H. destruct l as [|[ | | ]]; simpl; try lia.
  destruct (Z.even m); lia.
Qed.

Lemma round_aux_not_nan (s : bool) (m e : Z) (l : location) :
  (0 <= m)%Z -> is_nan (binary_round_aux prec emax s m e l) = false.
Proof.
  intros H. unfold binary_round_aux.
  generalize (shr_fexp_nonneg e l H).
  destruct (shr_fexp prec emax m e l) as [mrs' e']; simpl; intros H1.
  generalize (shr_fexp_nonneg e' loc_Exact
                (round_nearest_even_nonneg (loc_of_shr_record mrs') H1)).
  destruct (shr_fexp prec emax _ e' loc_Exact) as [mrs'' e'']; simpl.
  destruct (shr_m mrs''); intros H2; try reflexivity; try lia.
  destruct (_ <=? _)%Z; reflexivity.
Qed.

Lemma normalize_pos (p : positive) (e : Z) :
  let r := binary_normalize prec emax (Z.pos p) e false in
  not_negative r = true /\ is_nan r = false.
Proof.
  simpl. unfold binary_round.
  destruct (shl_align p e _) as [mz ez].
  split; [apply round_aux_not_negative | apply round_aux_not_nan; lia].
Qed.

Lemma add_not_negative (x y : double) :
  not_negative x = true -> not_negative y = true ->
  not_negative (x + y) = true.
Proof.
  destruct x as [sx|sx| |sx mx ex], y as [sy|sy| |sy my ey]; simpl;
    try reflexivity; intros Hx Hy;
    try (apply negb_true_iff in Hx; subst sx);
    try (apply negb_true_iff in Hy; subst sy);
    try reflexivity;
    try (destruct sx, sy; reflexivity).
  apply normalize_pos.
Qed.

(** Two numbers that are not below zero have a sum: the only NaN an
    addition creates is infinity minus infinity. *)
Lemma add_not_nan (x y : double) :
  is_nan x = false -> is_nan y = false ->
  not_negative x = true -> not_negative y = true ->
  is_nan (x + y) = false.
Proof.
  destruct x as [sx|sx| |sx mx ex], y as [sy|sy| |sy my ey]; simpl;
    try discriminate; intros _ _ Hx Hy;
    try (apply negb_true_iff in Hx; subst sx);
    try (apply negb_true_iff in Hy; subst sy);
    try reflexivity;
    try (destruct sx, sy; reflexivity).
  apply normalize_pos.
Qed.

End DoubleFacts.

(** * The constants *)

(** The literals of the source, as the bits a C compiler gives them. *)
Example GRAVITY_bits : GRAVITY = S754_finite false 5522539043063071 (-49).
Proof. reflexivity. Qed.

Example M_PI_valid : valid_binary prec emax M_PI = true.
Proof. reflexivity. Qed.

Example literal_0_001 : decimal 1 3 = S754_finite false 4611686018427388 (-62).
Proof. reflexivity. Qed.

Example literal_0_02 : decimal 2 2 = S754_finite false 5764607523034235 (-58).
Proof. reflexivity. Qed.

Example literal_0_01 : decimal 1 2 = S754_finite false 5764607523034235 (-59).
Proof. reflexivity. Qed.

Example literal_0_1 : decimal 1 1 = S754_finite false 7205759403792794 (-56).
Proof. reflexivity. Qed.

Example literal_0_015 : decimal 15 3 = S754_finite false 8646911284551352 (-59).
Proof. reflexivity. Qed.

Example literal_2000 : of_Z 2000 = S754_finite false 8796093022208000 (-42).
Proof. reflexivity. Qed.

Example literal_1e6 : of_Z 1000000 = S754_finite false 8589934592000000 (-33).
Proof. reflexivity. Qed.

(** Scenario S4 of the spec: [Re = 1000] takes the laminar branch and
    gives 0.064. *)
Example friction_laminar_1000 :
  calculate_friction_factor (of_Z 1000) = decimal 64 3.
Proof. reflexivity. Qed.

(** * The hydraulics kernel *)

Section Kernel.

Variable Host : Type.
Variable pow : double -> double -> double.
Implicit Type w : World Host.

Lemma calculate_head_loss_run w (Q : double) :
  calculate_head_loss pow Q w =
    (darcy_weisbach pow (length (pipe w)) (diameter (pipe w))
                    (density (pipe w)) Q,
     with_velocity (Q / pipe_area pow (diameter (pipe w))) w).
Proof. reflexivity. Qed.

Lemma calculate_pump_power_run w :
  calculate_pump_power w =
    (density (pipe w) * GRAVITY * flow_rate (pump w) * head (pump w), w).
Proof. reflexivity. Qed.

End Kernel.

(** * The friction factor *)

(** C4. [calculate_friction_factor] returns exactly [64.0 / Re] when
    [Re < 2000] and exactly the constant [0.02] when [Re >= 2000]. *)
Theorem friction_factor_switch (Re : double) :
  ((Re < of_Z 2000) = true ->
     calculate_friction_factor Re = of_Z 64 / Re) /\
  ((of_Z 2000 <= Re) = true ->
     calculate_friction_factor Re = decimal 2 2).
Proof.
  unfold calculate_friction_factor. split; intros H.
  - rewrite H. reflexivity.
  - rewrite (le_not_gt _ _ H). reflexivity.
Qed.

Lemma friction_factor_switch_witness :
  calculate_friction_factor (of_Z 1000) = of_Z 64 / of_Z 1000 /\
  calculate_friction_factor (of_Z 127324) = decimal 2 2.
Proof.
  split.
  - apply (proj1 (friction_factor_switch (of_Z 1000))). reflexivity.
  - apply (proj2 (friction_factor_switch (of_Z 127324))). reflexivity.
Defined.

(** * Head loss and pump power *)

Section KernelFormulas.

Variable Host : Type.
Variable pow : double -> double -> double.
Implicit Type w : World Host.

(** C5. [calculate_head_loss] computes [v = Q / A] with
    [A = M_PI * pow(D / 2, 2)], then [Re = rho * v * D / 0.001], then
    [f = calculate_friction_factor(Re)], and returns
    [f * (L / D) * pow(v, 2) / (2 * 9.81)]; the state it leaves differs
    from the one it found in [pipe.velocity] alone, which holds [v]; and
    the value is the same whatever the roughness, the old velocity, the
    pump, the tank, the output and the host are. *)
Theorem calculate_head_loss_formula w (Q : double) :
  let L := length (pipe w) in
  let D := diameter (pipe w) in
  let rho := density (pipe w) in
  let A := M_PI * pow (D / of_Z 2) (of_Z 2) in
  let v := Q / A in
  let Re := (rho * v * D) / decimal 1 3 in
  let f := calculate_friction_factor Re in
  eval (calculate_head_loss pow Q) w =
    f * (L / D) * pow v (of_Z 2) / (of_Z 2 * GRAVITY) /\
  exec (calculate_head_loss pow Q) w =
    mkWorld (pump w) (mkPipe L D (roughness (pipe w)) v rho)
            (tank w) (stdout w) (host w) /\
  forall (pm : Pump) (eps vel : double) (tk : Tank)
         (out : list printf_call) (hst : Host),
    eval (calculate_head_loss pow Q)
         (mkWorld pm (mkPipe L D eps vel rho) tk out hst) =
    eval (calculate_head_loss pow Q) w.
Proof. repeat split. Qed.

(** C6. [calculate_pump_power] returns exactly
    [rho * 9.81 * Q * H] and leaves the state as it found it; the value
    is the same whatever the pipe's length, diameter, roughness and
    velocity are, so whatever the head loss is. *)
Theorem calculate_pump_power_formula w :
  eval (@calculate_pump_power Host) w =
    density (pipe w) * GRAVITY * flow_rate (pump w) * head (pump w) /\
  exec (@calculate_pump_power Host) w = w /\
  forall (len D eps vel : double) (tk : Tank)
         (out : list printf_call) (hst : Host),
    eval (@calculate_pump_power Host)
         (mkWorld (pump w) (mkPipe len D eps vel (density (pipe w)))
                  tk out hst) =
    eval (@calculate_pump_power Host) w.
Proof. repeat split. Qed.

End KernelFormulas.

(** C7 fails on the source: with the pump of [main] switched off,
    [v = 0] and [Re = 0], the laminar branch computes [64.0 / 0.0], which
    is plus infinity, and the head loss is NaN, which is not a zero. *)
Lemma head_loss_zero_flow_is_nan :
  let w := exec (calculate_head_loss pow_square zero) idle_world in
  flow_rate (pump idle_world) = zero /\
  velocity (pipe w) = zero /\
  (density (pipe w) * velocity (pipe w) * diameter (pipe w)) / decimal 1 3
    = zero /\
  calculate_friction_factor zero = pinf /\
  eval (calculate_head_loss pow_square zero) idle_world = nan /\
  is_zero (eval (calculate_head_loss pow_square zero) idle_world) = false.
Proof. vm_compute. repeat split. Qed.

Section ZeroFlow.

Variable Host : Type.
Variable pow : double -> double -> double.
Implicit Type w : World Host.

Lemma zero_div (x y : double) :
  is_zero x = true -> is_nan y = false -> is_zero y = false ->
  is_zero (x / y) = true.
Proof. destruct x, y; simpl; congruence. Qed.

Lemma finite_mul_zero (x y : double) :
  is_finite x = true -> is_zero y = true -> is_zero (x * y) = true.
Proof. destruct x, y; simpl; congruence. Qed.

Lemma zero_mul_finite (x y : double) :
  is_zero x = true -> is_finite y = true -> is_zero (x * y) = true.
Proof. destruct x, y; simpl; congruence. Qed.

Lemma zero_lt_2000 (x : double) :
  is_zero x = true -> (x < of_Z 2000) = true.
Proof. destruct x; simpl; try discriminate. reflexivity. Qed.

Lemma div_by_zero (x : double) :
  is_zero x = true -> exists s, of_Z 64 / x = S754_infinity s.
Proof. destruct x as [s| | |]; try discriminate. exists s. reflexivity. Qed.

Lemma infinity_mul_mul_zero (s : bool) (x y : double) :
  is_zero y = true -> S754_infinity s * x * y = nan.
Proof. destruct x as [sx|sx| |sx mx ex], y; simpl; try discriminate; reflexivity. Qed.

(** C7, as the source has it.  When [Q] is a zero, the pipe's diameter
    and density are finite and its cross-section is neither zero nor
    NaN (and [pow] squares a zero to a zero), then [v] and [Re] are
    zeros, the laminar branch divides 64.0 by that zero and yields an
    infinity, and the head loss is NaN. *)
Theorem head_loss_zero_flow w (Q : double) :
  let D := diameter (pipe w) in
  let rho := density (pipe w) in
  let A := M_PI * pow (D / of_Z 2) (of_Z 2) in
  let v := Q / A in
  let Re := (rho * v * D) / decimal 1 3 in
  is_zero Q = true ->
  is_finite D = true ->
  is_finite rho = true ->
  is_nan A = false ->
  is_zero A = false ->
  is_zero (pow v (of_Z 2)) = true ->
  is_zero v = true /\
  is_zero Re = true /\
  (exists s, calculate_friction_factor Re = S754_infinity s) /\
  eval (calculate_head_loss pow Q) w = nan.
Proof.
  intros D rho A v Re HQ HD Hrho HA HA0 Hsq.
  assert (Hv : is_zero v = true) by (apply zero_div; assumption).
  assert (HRe : is_zero Re = true).
  { apply zero_div; try reflexivity.
    apply zero_mul_finite; [apply finite_mul_zero|]; assumption. }
  assert (Hf : exists s, calculate_friction_factor Re = S754_infinity s).
  { unfold calculate_friction_factor. rewrite (zero_lt_2000 _ HRe).
    apply div_by_zero, HRe. }
  repeat split; try assumption.
  destruct Hf as [s Hf].
  unfold eval. rewrite calculate_head_loss_run.
  unfold fst, darcy_weisbach, pipe_area.
  fold D rho A v Re. rewrite Hf, (infinity_mul_mul_zero _ _ _ Hsq).
  reflexivity.
Qed.

End ZeroFlow.

Lemma head_loss_zero_flow_witness :
  is_zero (velocity (pipe (exec (calculate_head_loss pow_square zero)
                                idle_world))) = true /\
  eval (calculate_head_loss pow_square zero) idle_world = nan.
Proof.
  destruct (@head_loss_zero_flow unit pow_square idle_world zero)
    as (Hv & _ & _ & Hnan); try reflexivity.
  split; [exact Hv | exact Hnan].
Defined.

(** * The tank integrator *)

Section Integrator.

Variable Host : Type.
Variable pow : double -> double -> double.
Implicit Type w : World Host.

(** What one call of [update_tank] does, branch by branch. *)
Lemma update_tank_run w (time_step : double) :
  exec (update_tank pow time_step) w =
    if head (pump w) < head_loss_now pow w then
      after_no_flow pow w
    else if raised_level pow time_step w > height (tank w) then
      after_flow pow (height (tank w)) (stdout w ++ [overflow_notice]) w
    else
      after_flow pow (raised_level pow time_step w) (stdout w) w.
Proof.
  unfold exec, update_tank, head_loss_now, eval, bind, gets.
  rewrite !calculate_head_loss_run.
  cbv beta iota zeta delta
    [fst snd ret modify set_water_level set_power printf bind gets
     calculate_pump_power with_velocity with_stdout after_flow
     after_no_flow raised_level level_increment tank_area
     pump pipe tank stdout host flow_rate head power length diameter
     roughness velocity density height radius water_level].
  destruct w as [[Q H P] [L D eps v rho] [Ht r h] out hst].
  destruct (H < _); [reflexivity|].
  destruct (_ > Ht); reflexivity.
Qed.

(** C3. A tick in which [pump.head < head_loss] prints the no-flow
    notice and returns: the tank (so [water_level]) and the pump (so
    [power]) are the ones before the call, the pipe differs in
    [velocity] alone.  Nothing remembers the tick: the head loss a
    following call computes is the one this call computed, and that
    call runs as it would from the state before this one, one notice
    later. *)
Theorem update_tank_no_flow w (time_step : double) :
  (head (pump w) < head_loss_now pow w) = true ->
  let w' := exec (update_tank pow time_step) w in
  tank w' = tank w /\
  pump w' = pump w /\
  pipe w' = pipe (with_velocity
                    (flow_rate (pump w) / pipe_area pow (diameter (pipe w)))
                    w) /\
  stdout w' = stdout w ++ [no_flow_notice] /\
  host w' = host w /\
  head_loss_now pow w' = head_loss_now pow w /\
  forall time_step',
    exec (update_tank pow time_step') w' =
    exec (update_tank pow time_step')
         (with_stdout (stdout w ++ [no_flow_notice]) w).
Proof.
  intros H w'. subst w'. rewrite update_tank_run, H.
  repeat split.
Qed.

(** C2. A tick in which [pump.head >= head_loss] and the raised level
    does not exceed the tank's height sets [water_level] to
    [water_level + (flow_rate / (M_PI * pow(radius, 2))) * time_step]:
    the inflow is the whole of [pump.flow_rate]. *)
Theorem update_tank_flow w (time_step : double) :
  let Q := flow_rate (pump w) in
  let A_t := M_PI * pow (radius (tank w)) (of_Z 2) in
  let level := water_level (tank w) + (Q / A_t) * time_step in
  (head_loss_now pow w <= head (pump w)) = true ->
  (level > height (tank w)) = false ->
  water_level (tank (exec (update_tank pow time_step) w)) = level.
Proof.
  intros Q A_t level Hhead Hclamp.
  rewrite update_tank_run, (le_not_gt _ _ Hhead).
  unfold raised_level, level_increment, tank_area.
  fold Q A_t level. rewrite Hclamp. reflexivity.
Qed.

End Integrator.

Lemma update_tank_no_flow_witness :
  water_level (tank (exec (update_tank pow_square (of_Z 1)) weak_pump_world))
    = zero /\
  power (pump (exec (update_tank pow_square (of_Z 1)) weak_pump_world))
    = zero.
Proof.
  destruct (@update_tank_no_flow unit pow_square weak_pump_world (of_Z 1))
    as (Ht & Hp & _); [reflexivity|].
  rewrite Ht, Hp. split; reflexivity.
Defined.

Lemma update_tank_flow_witness :
  water_level (tank (exec (update_tank pow_square (of_Z 1)) main_world))
    = zero + (decimal 1 2 / (M_PI * pow_square (of_Z 1) (of_Z 2))) * of_Z 1.
Proof.
  apply (@update_tank_flow unit pow_square main_world (of_Z 1));
    reflexivity.
Defined.

(** C1 fails on the source.  A pump that delivers nothing ([Q = 0], which
    is [>= 0]) into a tank whose radius is 2^-600 m: the square of the
    radius underflows to zero, the tank's area is zero, [Q / A_t] is
    [0.0 / 0.0], and the level that was 0 becomes NaN, which neither
    [0 <= h] nor [h <= H_t] holds of; no comparison with a NaN is true, so
    the clamp lets it through. *)
Lemma update_tank_level_nan :
  let w := thin_tank_world in
  let dt := of_Z 1 in
  let h' := water_level (tank (exec (update_tank pow_square dt) w)) in
  valid_binary prec emax (radius (tank w)) = true /\
  (zero < radius (tank w)) = true /\
  (zero <= water_level (tank w)) = true /\
  (water_level (tank w) <= height (tank w)) = true /\
  (zero <= flow_rate (pump w)) = true /\
  (zero < dt) = true /\
  h' = nan /\
  (zero <= h') = false /\
  (h' <= height (tank w)) = false.
Proof. vm_compute. repeat split. Qed.

Section LevelBounds.

Variable Host : Type.
Variable pow : double -> double -> double.
Implicit Type w : World Host.

Lemma le_refl (x : double) : is_nan x = false -> (x <= x) = true.
Proof.
  intros Hx. apply not_gt_le; try assumption. apply lt_irrefl.
Qed.

Lemma le_not_nan (x y : double) :
  (x <= y) = true -> is_nan x = false /\ is_nan y = false.
Proof. destruct x, y; simpl; try discriminate; auto. Qed.

Lemma zero_le_le (x y : double) :
  (zero <= x) = true -> (x <= y) = true -> (zero <= y) = true.
Proof.
  destruct x as [sx|sx| |sx mx ex], y as [sy|sy| |sy my ey];
    try discriminate; try reflexivity;
    try (destruct sx; try discriminate; destruct sy; try discriminate;
         reflexivity);
    try (destruct sx; discriminate);
    try (destruct sy; try discriminate; reflexivity).
Qed.

(** The increment of a tick is not below zero when the flow rate is not,
    the time step is positive and the square of the radius has its sign
    bit clear. *)
Lemma level_increment_not_negative w (time_step : double) :
  (zero <= flow_rate (pump w)) = true ->
  (zero < time_step) = true ->
  sign_clear (pow (radius (tank w)) (of_Z 2)) = true ->
  not_negative (level_increment pow time_step w) = true.
Proof.
  intros HQ Hdt Hsq. unfold level_increment, tank_area.
  apply mul_not_negative.
  - apply div_not_negative.
    + apply le_zero_iff, HQ.
    + apply mul_sign_clear; [reflexivity | exact Hsq].
  - apply lt_zero_not_negative, Hdt.
Qed.

(** One tick keeps the level within the tank, and keeps what the next
    tick needs for that. *)
Lemma update_tank_within w (time_step : double) :
  within_tank w -> steady_inflow pow time_step w ->
  within_tank (exec (update_tank pow time_step) w) /\
  steady_inflow pow time_step (exec (update_tank pow time_step) w) /\
  height (tank (exec (update_tank pow time_step) w)) = height (tank w).
Proof.
  intros [Hh0 HhH] (HQ & Hdt & Hsq & Hinc).
  pose proof (level_increment_not_negative w time_step HQ Hdt Hsq) as Hpos.
  destruct (le_not_nan _ _ HhH) as [Hn0 HnH].
  unfold within_tank, steady_inflow, level_increment.
  rewrite update_tank_run.
  destruct (head (pump w) < head_loss_now pow w).
  - repeat split; assumption.
  - destruct (raised_level pow time_step w > height (tank w)) eqn:Hclamp;
      cbn [after_flow tank pump water_level height radius flow_rate].
    + repeat split; try assumption.
      * exact (zero_le_le _ _ Hh0 HhH).
      * apply le_refl, HnH.
    + assert (Hr : is_nan (raised_level pow time_step w) = false).
      { apply add_not_nan; try assumption. apply le_zero_iff, Hh0. }
      repeat split; try assumption.
      * apply le_zero_iff. split; [exact Hr|].
        apply add_not_negative; [apply le_zero_iff, Hh0 | exact Hpos].
      * apply not_gt_le; assumption.
Qed.

(** C1, as the source has it.  From a level with [0 <= h <= H_t], a
    flow rate [Q >= 0] and a time step [> 0], one call of
    [update_tank] leaves a level with [0 <= h <= H_t], provided the
    increment [(Q / A_t) * time_step] it computes is a number (and the
    square [pow] returns for the radius does not have its sign bit
    set): the clamp bounds every number, and a NaN passes it. *)
Theorem update_tank_level_bounds w (time_step : double) :
  let Q := flow_rate (pump w) in
  let A_t := M_PI * pow (radius (tank w)) (of_Z 2) in
  let h' := water_level (tank (exec (update_tank pow time_step) w)) in
  (zero <= water_level (tank w)) = true ->
  (water_level (tank w) <= height (tank w)) = true ->
  (zero <= Q) = true ->
  (zero < time_step) = true ->
  sign_clear (pow (radius (tank w)) (of_Z 2)) = true ->
  is_nan ((Q / A_t) * time_step) = false ->
  (zero <= h') = true /\ (h' <= height (tank w)) = true.
Proof.
  intros Q A_t h' Hh0 HhH HQ Hdt Hsq Hinc. subst h'.
  destruct (update_tank_within (w:=w) (time_step:=time_step))
    as ([Hlo Hhi] & _ & Htop).
  - split; assumption.
  - repeat split; assumption.
  - rewrite Htop in Hhi. split; assumption.
Qed.

End LevelBounds.

Lemma update_tank_level_bounds_witness :
  let h' := water_level (tank (exec (update_tank pow_square (of_Z 1))
                                    main_world)) in
  (zero <= h') = true /\ (h' <= of_Z 5) = true.
Proof.
  apply (@update_tank_level_bounds unit pow_square main_world (of_Z 1));
    reflexivity.
Defined.

(** * The simulation loop *)

Section Driver.

Variable Host : Type.
Variable usleep : double -> Host -> Host.
Variable pow : double -> double -> double.
Implicit Type w : World Host.

Lemma observation_lines_app (out out' : list printf_call) :
  observation_lines (out ++ out') =
    (observation_lines out + observation_lines out')%nat.
Proof.
  unfold observation_lines. rewrite filter_app. apply length_app.
Qed.

(** [update_tank] prints notices only. *)
Lemma update_tank_no_row w (time_step : double) :
  observation_lines (stdout (exec (update_tank pow time_step) w)) =
    observation_lines (stdout w).
Proof.
  rewrite update_tank_run.
  destruct (head (pump w) < head_loss_now pow w);
    [|destruct (raised_level pow time_step w > height (tank w))];
    unfold after_no_flow, after_flow, with_stdout;
    cbn [stdout]; try rewrite observation_lines_app;
    cbn [observation_lines filter is_row no_flow_notice overflow_notice
         List.length]; lia.
Qed.

Lemma loop_body_run w (time_step t : double) :
  let w1 := exec (update_tank pow time_step) w in
  loop_body usleep pow time_step t w =
    (t + time_step,
     mkWorld (pump w1) (pipe w1) (tank w1)
       (stdout w1 ++ [Printf4 row_format t (water_level (tank w1))
                              (flow_rate (pump w1)) (power (pump w1))])
       (usleep (time_step * of_Z 1000000) (host w1))).
Proof.
  intros w1. subst w1. unfold loop_body, bind, exec.
  destruct (update_tank pow time_step w) as [[] w1]. reflexivity.
Qed.

End Driver.

(** ** Comparisons and exact values *)

Section Exact.

Lemma digits2_pos_bounds (m : positive) :
  (2 ^ (Z.pos (digits2_pos m) - 1) <= Z.pos m < 2 ^ Z.pos (digits2_pos m))%Z.
Proof.
  assert (Hstep : forall d : positive,
            (2 ^ (Z.pos (Pos.succ d) - 1) = 2 * 2 ^ (Z.pos d - 1)
             /\ 2 ^ Z.pos (Pos.succ d) = 2 * 2 ^ Z.pos d)%Z).
  { intros d. rewrite Pos2Z.inj_succ.
    replace (Z.succ (Z.pos d) - 1)%Z with (Z.succ (Z.pos d - 1))%Z by lia.
    rewrite !Z.pow_succ_r by lia. split; reflexivity. }
  induction m as [m IH|m IH|]; cbn [digits2_pos].
  - destruct (Hstep (digits2_pos m)) as [-> ->].
    rewrite (Pos2Z.inj_xI m). lia.
  - destruct (Hstep (digits2_pos m)) as [-> ->].
    rewrite (Pos2Z.inj_xO m). lia.
  - split; [reflexivity | reflexivity].
Qed.

Lemma bounded_facts (m : positive) (e : Z) :
  bounded prec emax m e = true ->
  (-1074 <= e)%Z /\
  (Z.pos m < 2 ^ 53)%Z /\
  (-1074 < e -> 2 ^ 52 <= Z.pos m)%Z.
Proof.
  unfold bounded, canonical_mantissa, fexp, emin, prec, emax.
  intros H. apply andb_true_iff in H. destruct H as [H _].
  apply Z.eqb_eq in H.
  pose proof (digits2_pos_bounds m) as [Hlo Hhi].
  set (d := Z.pos (digits2_pos m)) in *.
  assert (Hd : (0 < d)%Z) by (unfold d; lia).
  change (3 - 1024 - 53)%Z with (-1074)%Z in H.
  assert (Hd53 : (d <= 53)%Z) by lia.
  repeat split.
  - lia.
  - apply Z.lt_le_trans with (1 := Hhi).
    apply Z.pow_le_mono_r; lia.
  - intros He. assert (d = 53)%Z by lia.
    replace (d - 1)%Z with 52%Z in Hlo by lia. exact Hlo.
Qed.

Lemma magnitude_lt (m1 m2 : positive) (e1 e2 : Z) :
  bounded prec emax m1 e1 = true -> bounded prec emax m2 e2 = true ->
  (e1 < e2)%Z ->
  (Z.pos m1 * 2 ^ (e1 + 1074) < Z.pos m2 * 2 ^ (e2 + 1074))%Z.
Proof.
  intros H1 H2 He.
  destruct (bounded_facts _ _ H1) as (He1 & Hm1 & _).
  destruct (bounded_facts _ _ H2) as (He2 & _ & Hm2).
  specialize (Hm2 ltac:(lia)).
  change (2 ^ 53)%Z with 9007199254740992%Z in Hm1.
  change (2 ^ 52)%Z with 4503599627370496%Z in Hm2.
  assert (Hsplit : (2 ^ (e2 + 1074) =
                    2 ^ (e2 - e1 - 1) * (2 * 2 ^ (e1 + 1074)))%Z).
  { rewrite <- Z.pow_succ_r, <- Z.pow_add_r by lia. f_equal. lia. }
  assert (Hq : (0 < 2 ^ (e2 - e1 - 1))%Z) by (apply Z.pow_pos_nonneg; lia).
  assert (Hp : (0 < 2 ^ (e1 + 1074))%Z) by (apply Z.pow_pos_nonneg; lia).
  rewrite Hsplit.
  set (q := (2 ^ (e2 - e1 - 1))%Z) in *.
  set (p := (2 ^ (e1 + 1074))%Z) in *.
  clearbody q p. nia.
Qed.

Lemma magnitude_compare (m1 m2 : positive) (e1 e2 : Z) :
  bounded prec emax m1 e1 = true -> bounded prec emax m2 e2 = true ->
  match Z.compare e1 e2 with
  | Lt => Lt
  | Gt => Gt
  | Eq => Pos.compare_cont Eq m1 m2
  end = Z.compare (Z.pos m1 * 2 ^ (e1 + 1074)) (Z.pos m2 * 2 ^ (e2 + 1074)).
Proof.
  intros H1 H2. destruct (Z.compare_spec e1 e2) as [He|He|He].
  - subst e2. destruct (bounded_facts _ _ H1) as (He1 & _ & _).
    rewrite <- Zmult_compare_compat_r
      by (apply Z.lt_gt, Z.pow_pos_nonneg; lia).
    reflexivity.
  - symmetry. apply Z.compare_lt_iff, magnitude_lt; assumption.
  - symmetry. apply Z.compare_gt_iff, magnitude_lt; assumption.
Qed.

(** On valid finite doubles the comparison of the program is the
    comparison of the exact values. *)
Lemma compare_scaled (x y : double) :
  finite_valid x -> finite_valid y ->
  SFcompare x y = Some (Z.compare (scaled x) (scaled y)).
Proof.
  intros [Fx Vx] [Fy Vy].
  destruct x as [sx|sx| |sx mx ex], y as [sy|sy| |sy my ey];
    try discriminate; cbn [SFcompare scaled valid_binary] in *.
  - reflexivity.
  - destruct (bounded_facts _ _ Vy) as (He & _ & _).
    assert (Hp : (0 < 2 ^ (ey + 1074))%Z) by (apply Z.pow_pos_nonneg; lia).
    assert (Hv : (0 < Z.pos my * 2 ^ (ey + 1074))%Z) by nia.
    f_equal. symmetry.
    destruct sy; [apply Z.compare_gt_iff | apply Z.compare_lt_iff]; lia.
  - destruct (bounded_facts _ _ Vx) as (He & _ & _).
    assert (Hp : (0 < 2 ^ (ex + 1074))%Z) by (apply Z.pow_pos_nonneg; lia).
    assert (Hv : (0 < Z.pos mx * 2 ^ (ex + 1074))%Z) by nia.
    f_equal. symmetry.
    destruct sx; [apply Z.compare_lt_iff | apply Z.compare_gt_iff]; lia.
  - destruct (bounded_facts _ _ Vx) as (Hex & _ & _).
    destruct (bounded_facts _ _ Vy) as (Hey & _ & _).
    assert (Hvx : (0 < Z.pos mx * 2 ^ (ex + 1074))%Z)
      by (apply Z.mul_pos_pos; [lia | apply Z.pow_pos_nonneg; lia]).
    assert (Hvy : (0 < Z.pos my * 2 ^ (ey + 1074))%Z)
      by (apply Z.mul_pos_pos; [lia | apply Z.pow_pos_nonneg; lia]).
    f_equal. destruct sx, sy.
    + rewrite Z.compare_opp, (Z.compare_antisym _ (Z.pos my * _)).
      rewrite <- (magnitude_compare _ _ _ _ Vx Vy).
      destruct (Z.compare ex ey); reflexivity.
    + symmetry. apply Z.compare_lt_iff. lia.
    + symmetry. apply Z.compare_gt_iff. lia.
    + apply magnitude_compare; assumption.
Qed.

Lemma lt_scaled (x y : double) :
  finite_valid x -> finite_valid y ->
  (x < y) = true <-> (scaled x < scaled y)%Z.
Proof.
  intros Hx Hy. unfold lt, SFltb. rewrite (compare_scaled Hx Hy).
  unfold Z.lt. destruct (Z.compare (scaled x) (scaled y));
    split; congruence.
Qed.

(** The rational value, over the common denominator 2^1074. *)
Lemma to_Q_scaled (x : double) :
  finite_valid x -> (to_Q x == scaled x # Pos.pow 2 1074)%Q.
Proof.
  intros [Fx Vx].
  assert (HD : Z.pos (Pos.pow 2 1074) = (2 ^ 1074)%Z)
    by apply Pos2Z.inj_pow.
  destruct x as [sx|sx| |s m e]; try discriminate;
    cbn [to_Q scaled valid_binary] in *.
  - unfold Qeq. cbn [Qnum Qden]. lia.
  - destruct (bounded_facts _ _ Vx) as (He & _ & _).
    assert (Hmag :
      ((match e with
        | Z.neg p => Z.pos m # Pos.pow 2 p
        | _ => inject_Z (Z.pos m * 2 ^ e)
        end) == (Z.pos m * 2 ^ (e + 1074)) # Pos.pow 2 1074)%Q).
    { unfold Qeq. destruct e as [|p|p]; cbn [Qnum Qden inject_Z].
      - rewrite HD. change (0 + 1074)%Z with 1074%Z. lia.
      - rewrite HD, Z.pow_add_r by lia. lia.
      - rewrite HD, Pos2Z.inj_pow.
        replace 1074%Z with ((Z.neg p + 1074) + Z.pos p)%Z at 1 by lia.
        rewrite (Z.pow_add_r 2 (Z.neg p + 1074) (Z.pos p)) by lia. lia. }
    destruct s; [|exact Hmag].
    rewrite Hmag. unfold Qeq. cbn [Qnum Qden Qopp]. lia.
Qed.

Lemma to_Q_multiple (k : Z) (x y : double) :
  finite_valid x -> finite_valid y ->
  (to_Q x == inject_Z k * to_Q y)%Q -> scaled x = (k * scaled y)%Z.
Proof.
  intros Hx Hy. rewrite (to_Q_scaled Hx), (to_Q_scaled Hy).
  unfold Qeq. cbn [Qnum Qden Qmult inject_Z].
  generalize (Pos.pow 2 1074). intros D H.
  rewrite Pos2Z.inj_mul in H. nia.
Qed.

Lemma to_Q_positive (x : double) :
  finite_valid x -> (0 < to_Q x)%Q -> (0 < scaled x)%Z.
Proof.
  intros Hx. rewrite (to_Q_scaled Hx).
  unfold Qlt. cbn [Qnum Qden]. lia.
Qed.

End Exact.

Section Loop.

Variable Host : Type.
Variable usleep : double -> Host -> Host.
Variable pow : double -> double -> double.
Implicit Type w : World Host.

(** The loop makes [n] passes, and prints [n] observation lines, when
    the clock stays below the duration for [n] passes and is not below
    it after them; any fuel above [n] is enough. *)
Lemma simulate_loop_lines (n : nat) :
  forall (fuel : nat) (duration time_step t : double) w,
    (forall k, (k < n)%nat -> (clock time_step t k < duration) = true) ->
    (clock time_step t n < duration) = false ->
    (n < fuel)%nat ->
    exists w',
      simulate_loop usleep pow fuel duration time_step t w = Some w' /\
      observation_lines (stdout w') =
        (observation_lines (stdout w) + n)%nat.
Proof.
  induction n as [|n IH]; intros fuel duration time_step t w Hlt Hge Hfuel;
    (destruct fuel as [|fuel]; [lia|]); cbn [simulate_loop].
  - cbn [clock] in Hge. rewrite Hge. exists w. split; [reflexivity | lia].
  - assert (H0 : (t < duration) = true) by (apply (Hlt O); lia).
    rewrite H0, loop_body_run.
    set (w1 := exec (update_tank pow time_step) w).
    destruct (@IH fuel duration time_step (t + time_step)
                (mkWorld (pump w1) (pipe w1) (tank w1)
                   (stdout w1 ++
                      [Printf4 row_format t (water_level (tank w1))
                               (flow_rate (pump w1)) (power (pump w1))])
                   (usleep (time_step * of_Z 1000000) (host w1))))
      as (w' & Hrun & Hlines).
    + intros k Hk. apply (Hlt (S k)). lia.
    + exact Hge.
    + lia.
    + exists w'. split; [exact Hrun|].
      rewrite Hlines. cbn [stdout]. rewrite observation_lines_app.
      unfold w1. rewrite update_tank_no_row.
      cbn [observation_lines filter is_row List.length]. lia.
Qed.

(** [simulate_system] prints one observation line per pass through its
    loop, and the passes are counted by the clock the loop keeps:
    [current_time] starts at 0.0 and has [time_step] added once per pass,
    each sum rounded to a double.  When that clock is below the duration
    after 0, 1, ..., n-1 additions and not below it after n, the call
    returns and has printed exactly [n] observation lines. *)
Lemma simulate_system_passes
    (n fuel : nat) (duration time_step : double) w :
  (forall k, (k < n)%nat -> (clock time_step zero k < duration) = true) ->
  (clock time_step zero n < duration) = false ->
  (n < fuel)%nat ->
  exists w',
    simulate_system usleep pow fuel duration time_step w = Some w' /\
    observation_lines (stdout w') =
      (observation_lines (stdout w) + n)%nat.
Proof.
  intros Hlt Hge Hfuel. unfold simulate_system.
  destruct (@simulate_loop_lines n fuel duration time_step zero
              (exec (bind (printf header_titles)
                          (fun _ => printf header_rule)) w)
              Hlt Hge Hfuel) as (w' & Hrun & Hlines).
  exists w'. split; [exact Hrun|].
  rewrite Hlines. cbn [exec bind printf modify snd stdout].
  rewrite !observation_lines_app.
  cbn [observation_lines filter is_row header_titles header_rule
       List.length]. lia.
Qed.


(** C8, as the source has it.  When the duration is [n] times the time
    step, [n > 0], and the clock of the loop is exact up to there (after
    [k <= n] additions it holds [k] times the time step, no sum having been
    rounded), [simulate_system] returns and has printed exactly
    [ceil (duration / time_step)] observation lines, which is [n]. *)
Theorem simulate_system_lines
    (n fuel : nat) (duration time_step : double) w :
  finite_valid duration ->
  finite_valid time_step ->
  (0 < to_Q time_step)%Q ->
  (0 < n)%nat ->
  (to_Q duration == inject_Z (Z.of_nat n) * to_Q time_step)%Q ->
  (forall k, (k <= n)%nat ->
     finite_valid (clock time_step zero k) /\
     (to_Q (clock time_step zero k)
        == inject_Z (Z.of_nat k) * to_Q time_step)%Q) ->
  (n < fuel)%nat ->
  exists w',
    simulate_system usleep pow fuel duration time_step w = Some w' /\
    Z.of_nat (observation_lines (stdout w')) =
      (Z.of_nat (observation_lines (stdout w)) +
       Qceiling (to_Q duration / to_Q time_step))%Z.
Proof.
  intros Vd Vt Hpos Hn Hmul Hexact Hfuel.
  pose proof (to_Q_positive Vt Hpos) as Hs.
  pose proof (to_Q_multiple Vd Vt Hmul) as Hd.
  assert (Hk : forall k, (k <= n)%nat ->
            finite_valid (clock time_step zero k) /\
            scaled (clock time_step zero k)
              = (Z.of_nat k * scaled time_step)%Z).
  { intros k Hle. destruct (Hexact k Hle) as [Vk Hq].
    split; [exact Vk | exact (to_Q_multiple Vk Vt Hq)]. }
  destruct (@simulate_system_passes n fuel duration time_step w)
    as (w' & Hrun & Hlines).
  - intros k Hlt. destruct (Hk k ltac:(lia)) as [Vk Hsk].
    apply (lt_scaled Vk Vd). rewrite Hsk, Hd. nia.
  - destruct (Hk n ltac:(lia)) as [Vn Hsn].
    destruct (clock time_step zero n < duration) eqn:Hlt; [|reflexivity].
    apply (lt_scaled Vn Vd) in Hlt. lia.
  - exact Hfuel.
  - exists w'. split; [exact Hrun|].
    assert (Hceil : Qceiling (to_Q duration / to_Q time_step)
                    = Z.of_nat n).
    { rewrite Hmul, Qdiv_mult_l.
      - apply Qceiling_Z.
      - intros H0. rewrite H0 in Hpos. discriminate. }
    rewrite Hceil, Hlines. lia.
Qed.

End Loop.

(** C8 fails on the source.  With [time_step = 0.1] and [duration = 0.8]
    (as doubles, the duration is exactly 8 times the time step, and the
    quotient's ceiling is 8) the clock after 8 additions is
    0.7999999999999999, below 8 times the time step and so still below
    the duration: a ninth line is printed. *)
Lemma nine_lines_for_eight_steps :
  let dt := decimal 1 1 in
  let duration := decimal 8 1 in
  (zero < dt) = true /\
  (to_Q duration == 8 * to_Q dt)%Q /\
  Qceiling (to_Q duration / to_Q dt) = 8%Z /\
  (clock dt zero 8 < duration) = true /\
  (to_Q (clock dt zero 8) < 8 * to_Q dt)%Q /\
  option_map (fun w => observation_lines (stdout w))
    (simulate_system no_sleep pow_square 100 duration dt main_world)
  = Some 9%nat.
Proof. vm_compute. repeat split. Qed.

Lemma simulate_system_lines_witness :
  exists w',
    simulate_system no_sleep pow_square 10 (of_Z 3) (of_Z 1) main_world
      = Some w' /\
    Z.of_nat (observation_lines (stdout w')) =
      (0 + Qceiling (to_Q (of_Z 3) / to_Q (of_Z 1)))%Z.
Proof.
  apply (@simulate_system_lines unit no_sleep pow_square 3 10
           (of_Z 3) (of_Z 1) main_world).
  - split; reflexivity.
  - split; reflexivity.
  - reflexivity.
  - lia.
  - vm_compute. reflexivity.
  - intros k Hk.
    destruct k as [|[|[|[|k]]]]; try lia;
      (split; [split; reflexivity | vm_compute; reflexivity]).
  - lia.
Defined.

(** ** The level over a whole run *)

Section RunInvariant.

Variable Host : Type.
Variable usleep : double -> Host -> Host.
Variable pow : double -> double -> double.
Implicit Type w : World Host.

Lemma rows_within_app (top : double) (out out' : list printf_call) :
  rows_within top out -> rows_within top out' ->
  rows_within top (out ++ out').
Proof. intros H H'. apply Forall_app. split; assumption. Qed.

Lemma update_tank_rows (top : double) w (time_step : double) :
  rows_within top (stdout w) ->
  rows_within top (stdout (exec (update_tank pow time_step) w)).
Proof.
  intros H. rewrite update_tank_run.
  destruct (head (pump w) < head_loss_now pow w);
    [|destruct (raised_level pow time_step w > height (tank w))];
    unfold after_no_flow, after_flow, with_stdout; cbn [stdout];
    try exact H;
    (apply rows_within_app; [exact H|]);
    repeat constructor.
Qed.

(** Every tick of the loop starts and ends with the level within the
    tank, and every row reports such a level. *)
Lemma simulate_loop_within (fuel : nat) :
  forall (duration time_step t : double) w w',
    within_tank w -> steady_inflow pow time_step w ->
    rows_within (height (tank w)) (stdout w) ->
    simulate_loop usleep pow fuel duration time_step t w = Some w' ->
    within_tank w' /\
    rows_within (height (tank w')) (stdout w') /\
    height (tank w') = height (tank w).
Proof.
  induction fuel as [|fuel IH]; intros duration time_step t w w' Hw Hin Hrows;
    cbn [simulate_loop]; [discriminate|].
  destruct (t < duration).
  - rewrite loop_body_run.
    destruct (update_tank_within Hw Hin) as (Hw1 & Hin1 & Htop).
    pose proof (@update_tank_rows _ _ time_step Hrows) as Hrows1.
    set (w1 := exec (update_tank pow time_step) w) in *.
    intros Hrun. apply IH in Hrun.
    + cbn [tank] in Hrun. rewrite Htop in Hrun. exact Hrun.
    + exact Hw1.
    + exact Hin1.
    + cbn [tank stdout]. rewrite Htop.
      apply rows_within_app; [exact Hrows1|].
      constructor; [|constructor].
      destruct Hw1 as [Hlo Hhi]. rewrite Htop in Hhi. split; assumption.
  - intros Hrun. injection Hrun as <-. repeat split; try assumption;
      apply Hw.
Qed.

Lemma simulate_system_within
    (fuel : nat) (duration time_step : double) w w' :
  within_tank w -> steady_inflow pow time_step w ->
  rows_within (height (tank w)) (stdout w) ->
  simulate_system usleep pow fuel duration time_step w = Some w' ->
  within_tank w' /\
  height (tank w') = height (tank w) /\
  rows_within (height (tank w)) (stdout w').
Proof.
  intros Hw Hin Hrows Hrun. unfold simulate_system in Hrun.
  apply simulate_loop_within in Hrun.
  - destruct Hrun as (Hw' & Hrows' & Htop). cbn [tank] in Htop.
    rewrite Htop in Hrows'. repeat split; try assumption; apply Hw'.
  - exact Hw.
  - exact Hin.
  - cbn [exec bind printf modify snd tank stdout].
    rewrite <- app_assoc. apply rows_within_app; [exact Hrows|].
    repeat constructor.
Qed.

End RunInvariant.

(** The run of [main] meets the conditions: every row it prints reports
    a level between 0 and the 5 m of the tank. *)
Example main_rows_within :
  exists w' : World unit,
    simulate_system no_sleep pow_square 61 (of_Z 60) (of_Z 1) main_world
      = Some w' /\
    rows_within (of_Z 5) (stdout w').
Proof.
  assert (Hrun : exists w' : World unit,
            simulate_system no_sleep pow_square 61 (of_Z 60) (of_Z 1)
              main_world = Some w')
    by (eexists; vm_compute; reflexivity).
  destruct Hrun as [w' Hrun]. exists w'. split; [exact Hrun|].
  apply (@simulate_system_within unit no_sleep pow_square 61
           (of_Z 60) (of_Z 1) main_world w'); try exact Hrun.
  - vm_compute. split; reflexivity.
  - vm_compute. repeat split.
  - constructor.
Qed.

(** * Determinism *)

Section Determinism.

Variable pow : double -> double -> double.

Section OneHost.

Variable Host : Type.
Variable usleep : double -> Host -> Host.
Implicit Type w : World Host.

(** The host plays no part in a tick. *)
Lemma observe_update_tank w (time_step : double) :
  observe (exec (update_tank pow time_step) w) =
    exec (update_tank pow time_step) (observe w).
Proof.
  rewrite !update_tank_run.
  change (head_loss_now pow (observe w)) with (head_loss_now pow w).
  change (raised_level pow time_step (observe w))
    with (raised_level pow time_step w).
  cbn [observe pump tank head height].
  destruct (head (pump w) < head_loss_now pow w);
    [|destruct (raised_level pow time_step w > height (tank w))];
    reflexivity.
Qed.

Lemma observe_loop_body w (time_step t : double) :
  let r := loop_body usleep pow time_step t w in
  loop_body no_sleep pow time_step t (observe w) =
    (fst r, observe (snd r)).
Proof.
  cbv zeta. rewrite !loop_body_run, <- observe_update_tank.
  reflexivity.
Qed.

(** Running on any host, then forgetting it, is running on no host. *)
Lemma observe_simulate_loop (fuel : nat) :
  forall (duration time_step t : double) w,
    option_map observe
      (simulate_loop usleep pow fuel duration time_step t w) =
    simulate_loop no_sleep pow fuel duration time_step t (observe w).
Proof.
  induction fuel as [|fuel IH]; intros duration time_step t w;
    cbn [simulate_loop]; [reflexivity|].
  destruct (t < duration); [|reflexivity].
  rewrite observe_loop_body.
  destruct (loop_body usleep pow time_step t w) as [t' w'].
  apply IH.
Qed.

Lemma observe_simulate_system
    (fuel : nat) (duration time_step : double) w :
  option_map observe
    (simulate_system usleep pow fuel duration time_step w) =
  simulate_system no_sleep pow fuel duration time_step (observe w).
Proof. unfold simulate_system. apply observe_simulate_loop. Qed.

End OneHost.

(** C10. Two executions of [simulate_system] with the same parameters
    and the same records, on any two hosts and with any two sleepers
    that act on their host alone, either both run out of fuel or both
    return, with the same sequence of [printf] calls, hence the same
    bytes under any formatter, and the same records. *)
Theorem simulate_system_deterministic
    (Host1 Host2 : Type)
    (usleep1 : double -> Host1 -> Host1)
    (usleep2 : double -> Host2 -> Host2)
    (fuel : nat) (duration time_step : double)
    (pm : Pump) (pp : Pipe) (tk : Tank) (out : list printf_call)
    (h1 : Host1) (h2 : Host2)
    (vprintf : string -> list double -> string) :
  let run1 := simulate_system usleep1 pow fuel duration time_step
                (mkWorld pm pp tk out h1) in
  let run2 := simulate_system usleep2 pow fuel duration time_step
                (mkWorld pm pp tk out h2) in
  option_map stdout run1 = option_map stdout run2 /\
  option_map (fun w => render vprintf (stdout w)) run1 =
    option_map (fun w => render vprintf (stdout w)) run2 /\
  option_map observe run1 = option_map observe run2.
Proof.
  intros run1 run2.
  assert (H : option_map observe run1 = option_map observe run2).
  { unfold run1, run2. rewrite !observe_simulate_system. reflexivity. }
  clearbody run1 run2.
  destruct run1 as [w1|], run2 as [w2|]; cbn [option_map] in *;
    try discriminate; [|repeat split].
  injection H as Hpump Hpipe Htank Hout.
  unfold observe. rewrite Hout, Hpump, Hpipe, Htank. repeat split.
Qed.

End Determinism.

(** * Scenario S1: the run of [main] *)

(** C9 fails on the source in one place: the power is computed as
    [((1000.0 * 9.81) * 0.01) * 10.0], whose three roundings leave the
    double next above 981, not 981. *)
Lemma main_power_is_not_981 :
  let P := option_map (fun w => power (pump w))
             (simulate_system no_sleep pow_square 2 (of_Z 1) (of_Z 1)
                main_world) in
  P = Some (S754_finite false 8628967254786049 (-43)) /\
  of_Z 981 = S754_finite false 8628967254786048 (-43) /\
  option_map (fun p => SFeqb p (of_Z 981)) P = Some false /\
  P <> Some (of_Z 981).
Proof. vm_compute. repeat split. discriminate. Qed.

(** C9, as the source has it.  With the records of [main], a time step
    of 1 s and [pow] the rounded square: when the clock reaches 1 s (one
    pass, whose row carries the time 0.0) the level is within 5e-7 of
    0.003183 m and the power is 981 + 2^-43 W; the run of [main] over
    60 s returns, prints 60 rows and no notice, and ends with a level
    within 5e-5 of 0.1910 m, below the tank's height. *)
Theorem scenario_S1 :
  exists w1 w60 : World unit,
    simulate_system no_sleep pow_square 2 (of_Z 1) (of_Z 1) main_world
      = Some w1 /\
    main no_sleep pow_square 61 tt = Some (0%Z, w60) /\
    stdout w1 =
      [header_titles; header_rule;
       Printf4 row_format zero (water_level (tank w1))
               (flow_rate (pump w1)) (power (pump w1))] /\
    (3182500 # 1000000000 < to_Q (water_level (tank w1)))%Q /\
    (to_Q (water_level (tank w1)) < 3183500 # 1000000000)%Q /\
    (to_Q (power (pump w1)) == 981 + (1 # 2 ^ 43))%Q /\
    power (pump w60) = power (pump w1) /\
    forallb (fun c => negb (is_notice c)) (stdout w60) = true /\
    observation_lines (stdout w60) = 60%nat /\
    (190950 # 1000000 < to_Q (water_level (tank w60)))%Q /\
    (to_Q (water_level (tank w60)) < 191050 # 1000000)%Q /\
    (water_level (tank w60) < height (tank w60)) = true.
Proof.
  eexists. eexists.
  split; [vm_compute; reflexivity|].
  split; [vm_compute; reflexivity|].
  vm_compute. repeat split.
Qed.

(** * Further properties of the tank integrator *)

Section TickFrame.

Variable Host : Type.
Variable pow : double -> double -> double.
Implicit Type w : World Host.

(** X1. [update_tank] assigns [pipe.velocity], [tank.water_level] and
    [pump.power] and nothing else: the flow rate, the head, the pipe's
    length, diameter, roughness and density, the tank's height and radius
    and the host are the ones before the call, on every branch; and the
    velocity it leaves is [flow_rate / (M_PI * pow(diameter / 2, 2))]
    whatever it was. *)
Theorem update_tank_frame w (time_step : double) :
  let w' := exec (update_tank pow time_step) w in
  same_parameters w w' /\
  host w' = host w /\
  velocity (pipe w') =
    flow_rate (pump w) /
      (M_PI * pow (diameter (pipe w) / of_Z 2) (of_Z 2)).
Proof.
  cbv zeta. rewrite update_tank_run.
  destruct (head (pump w) < head_loss_now pow w);
    [|destruct (raised_level pow time_step w > height (tank w))];
    repeat split.
Qed.

(** What a tick appends to the output: nothing or one notice. *)
Lemma update_tank_output w (time_step : double) :
  exists notices,
    (notices = [] \/ notices = [no_flow_notice]
     \/ notices = [overflow_notice]) /\
    stdout (exec (update_tank pow time_step) w) = stdout w ++ notices.
Proof.
  rewrite update_tank_run.
  destruct (head (pump w) < head_loss_now pow w);
    [|destruct (raised_level pow time_step w > height (tank w))].
  - exists [no_flow_notice]. split; [auto | reflexivity].
  - exists [overflow_notice]. split; [auto | reflexivity].
  - exists []. split; [auto | symmetry; apply app_nil_r].
Qed.


End TickFrame.


(** * Further properties of the simulation loop *)

Section PassOutput.

Variable Host : Type.
Variable usleep : double -> Host -> Host.
Variable pow : double -> double -> double.
Implicit Type w : World Host.

(** X2. One pass through the loop appends to the output at most one
    notice (never both) and then exactly one observation line, in that
    order; the line carries the time before the increment and the level,
    flow rate and power the tick has left. *)
Theorem loop_body_output w (time_step t : double) :
  let w' := snd (loop_body usleep pow time_step t w) in
  exists notices,
    (notices = [] \/ notices = [no_flow_notice]
     \/ notices = [overflow_notice]) /\
    stdout w' =
      stdout w ++ notices ++
      [Printf4 row_format t (water_level (tank w'))
               (flow_rate (pump w')) (power (pump w'))].
Proof.
  cbv zeta. rewrite loop_body_run. cbn [snd stdout tank pump].
  destruct (update_tank_output pow w time_step) as (notices & Hn & Hout).
  exists notices. split; [exact Hn|].
  rewrite Hout, <- app_assoc. reflexivity.
Qed.

End PassOutput.

Section RunSummary.

Variable Host : Type.
Variable usleep : double -> Host -> Host.
Variable pow : double -> double -> double.
Implicit Type w : World Host.

Lemma same_parameters_refl w : same_parameters w w.
Proof. repeat split. Qed.

Lemma same_parameters_trans (w1 w2 w3 : World Host) :
  same_parameters w1 w2 -> same_parameters w2 w3 -> same_parameters w1 w3.
Proof.
  unfold same_parameters.
  intros (A1 & A2 & A3 & A4 & A5 & A6 & A7 & A8)
         (B1 & B2 & B3 & B4 & B5 & B6 & B7 & B8).
  repeat split; congruence.
Qed.

Lemma update_tank_same_parameters w (time_step : double) :
  same_parameters w (exec (update_tank pow time_step) w) /\
  host (exec (update_tank pow time_step) w) = host w.
Proof.
  rewrite update_tank_run.
  destruct (head (pump w) < head_loss_now pow w);
    [|destruct (raised_level pow time_step w > height (tank w))];
    repeat split.
Qed.

Lemma update_tank_row_columns w (time_step : double) :
  row_times (stdout (exec (update_tank pow time_step) w))
    = row_times (stdout w) /\
  row_flow_rates (stdout (exec (update_tank pow time_step) w))
    = row_flow_rates (stdout w).
Proof.
  destruct (update_tank_output pow w time_step) as (notices & Hn & ->).
  unfold row_times, row_flow_rates. rewrite !flat_map_app.
  destruct Hn as [->|[->| ->]]; cbn [flat_map no_flow_notice overflow_notice
                                     app]; rewrite !app_nil_r; auto.
Qed.

Lemma clock_shift (time_step t : double) (n : nat) :
  map (clock time_step t) (seq 0 (S n)) =
    t :: map (clock time_step (t + time_step)) (seq 0 n).
Proof.
  cbn [seq map clock]. f_equal.
  rewrite <- seq_shift, map_map. reflexivity.
Qed.

(** What a loop that returns has done: some number [n] of passes, the
    number the clock allows; one [usleep] and one row per pass. *)
Lemma simulate_loop_summary (fuel : nat) :
  forall (duration time_step t : double) w w',
    simulate_loop usleep pow fuel duration time_step t w = Some w' ->
    exists n : nat,
      (n < fuel)%nat /\
      (forall k, (k < n)%nat ->
         (clock time_step t k < duration) = true) /\
      (clock time_step t n < duration) = false /\
      same_parameters w w' /\
      host w' = Nat.iter n (usleep (time_step * of_Z 1000000)) (host w) /\
      observation_lines (stdout w') =
        (observation_lines (stdout w) + n)%nat /\
      row_times (stdout w') =
        row_times (stdout w) ++ map (clock time_step t) (seq 0 n) /\
      row_flow_rates (stdout w') =
        row_flow_rates (stdout w) ++ repeat (flow_rate (pump w)) n.
Proof.
  induction fuel as [|fuel IH]; intros duration time_step t w w';
    cbn [simulate_loop]; [discriminate|].
  destruct (t < duration) eqn:Hlt.
  - rewrite loop_body_run.
    destruct (update_tank_same_parameters w time_step) as [Hpar Hhost].
    destruct (update_tank_row_columns w time_step) as [Htimes Hflows].
    pose proof (update_tank_no_row pow w time_step) as Hrows.
    set (w1 := exec (update_tank pow time_step) w) in *.
    intros Hrun. apply IH in Hrun.
    destruct Hrun as (n & Hn & Hbelow & Hstop & Hpar' & Hhost' & Hlines
                      & Htimes' & Hflows').
    cbn [stdout host pump] in *.
    assert (Hsame : same_parameters w w').
    { eapply same_parameters_trans; [exact Hpar|].
      destruct Hpar' as (A1 & A2 & A3 & A4 & A5 & A6 & A7 & A8).
      repeat split; assumption. }
    assert (Hh : host w' =
                 Nat.iter (S n) (usleep (time_step * of_Z 1000000)) (host w)).
    { rewrite Hhost', Hhost. symmetry. apply Nat.iter_succ_r. }
    assert (Hl : observation_lines (stdout w') =
                 (observation_lines (stdout w) + S n)%nat).
    { rewrite Hlines, observation_lines_app, Hrows.
      cbn [observation_lines filter is_row List.length]. lia. }
    assert (Ht : row_times (stdout w') =
                 row_times (stdout w)
                 ++ map (clock time_step t) (seq 0 (S n))).
    { rewrite Htimes', clock_shift. unfold row_times at 1.
      rewrite flat_map_app. fold (row_times (stdout w1)).
      rewrite Htimes. cbn [flat_map app]. rewrite <- app_assoc.
      reflexivity. }
    assert (Hf : row_flow_rates (stdout w') =
                 row_flow_rates (stdout w)
                 ++ repeat (flow_rate (pump w)) (S n)).
    { rewrite Hflows'. unfold row_flow_rates at 1.
      rewrite flat_map_app. fold (row_flow_rates (stdout w1)).
      rewrite Hflows. cbn [flat_map app repeat]. rewrite <- app_assoc.
      destruct Hpar as (-> & _). reflexivity. }
    exists (S n).
    split; [lia|].
    split; [intros [|k] Hk; [exact Hlt | apply Hbelow; lia]|].
    split; [exact Hstop|].
    split; [exact Hsame|].
    split; [exact Hh|].
    split; [exact Hl|].
    split; [exact Ht | exact Hf].
  - intros Hrun. injection Hrun as <-. exists O.
    split; [lia|].
    split; [intros k Hk; lia|].
    split; [exact Hlt|].
    split; [apply same_parameters_refl|].
    split; [reflexivity|].
    split; [lia|].
    cbn [seq map repeat]. rewrite !app_nil_r. split; reflexivity.
Qed.

End RunSummary.

Section RunProperties.

Variable Host : Type.
Variable usleep : double -> Host -> Host.
Variable pow : double -> double -> double.
Implicit Type w : World Host.

(** The loop of [simulate_system] starts from the state with the two
    header lines printed. *)
Lemma simulate_system_summary
    (fuel : nat) (duration time_step : double) w w' :
  simulate_system usleep pow fuel duration time_step w = Some w' ->
  exists n : nat,
    (n < fuel)%nat /\
    (forall k, (k < n)%nat ->
       (clock time_step zero k < duration) = true) /\
    (clock time_step zero n < duration) = false /\
    same_parameters w w' /\
    host w' = Nat.iter n (usleep (time_step * of_Z 1000000)) (host w) /\
    observation_lines (stdout w') = (observation_lines (stdout w) + n)%nat /\
    row_times (stdout w') =
      row_times (stdout w) ++ map (clock time_step zero) (seq 0 n) /\
    row_flow_rates (stdout w') =
      row_flow_rates (stdout w) ++ repeat (flow_rate (pump w)) n.
Proof.
  unfold simulate_system. intros Hrun.
  apply simulate_loop_summary in Hrun.
  destruct Hrun as (n & H1 & H2 & H3 & H4 & H5 & H6 & H7 & H8).
  exists n. cbn [exec bind printf modify snd stdout host pump] in *.
  split; [exact H1|]. split; [exact H2|]. split; [exact H3|].
  split; [exact H4|]. split; [exact H5|].
  split.
  { rewrite H6, !observation_lines_app.
    cbn [observation_lines filter is_row header_titles header_rule
         List.length]. lia. }
  split.
  { rewrite H7. unfold row_times. rewrite !flat_map_app.
    cbn [flat_map header_titles header_rule app]. rewrite !app_nil_r.
    reflexivity. }
  rewrite H8. unfold row_flow_rates. rewrite !flat_map_app.
  cbn [flat_map header_titles header_rule app]. rewrite !app_nil_r.
  reflexivity.
Qed.

(** X4. With a duration that [0.0 < duration] does not hold of (zero,
    negative or NaN) the loop is not entered: [simulate_system] prints the
    two header lines and returns, the records and the host untouched. *)
Theorem simulate_system_no_pass
    (fuel : nat) (duration time_step : double) w :
  (zero < duration) = false ->
  simulate_system usleep pow (S fuel) duration time_step w =
    Some (with_stdout (stdout w ++ [header_titles; header_rule]) w).
Proof.
  intros H. unfold simulate_system. cbn [simulate_loop]. rewrite H.
  unfold with_stdout, exec, bind, printf, modify. cbn [snd stdout].
  rewrite <- app_assoc. reflexivity.
Qed.

(** X6. A run that returns has not touched the parameters: flow rate,
    head, pipe length, diameter, roughness and density, tank height and
    radius are the ones it started with. *)
Theorem simulate_system_same_parameters
    (fuel : nat) (duration time_step : double) w w' :
  simulate_system usleep pow fuel duration time_step w = Some w' ->
  same_parameters w w'.
Proof.
  intros Hrun. apply simulate_system_summary in Hrun.
  destruct Hrun as (n & _ & _ & _ & H & _). exact H.
Qed.

(** X7. A run that returns has called [usleep] once per observation line
    it printed, every time with the argument [time_step * 1e6]. *)
Theorem simulate_system_pacing
    (fuel : nat) (duration time_step : double) w w' :
  simulate_system usleep pow fuel duration time_step w = Some w' ->
  exists n : nat,
    observation_lines (stdout w') = (observation_lines (stdout w) + n)%nat /\
    host w' = Nat.iter n (usleep (time_step * of_Z 1000000)) (host w).
Proof.
  intros Hrun. apply simulate_system_summary in Hrun.
  destruct Hrun as (n & _ & _ & _ & _ & Hh & Hl & _).
  exists n. split; assumption.
Qed.

(** X8. The observation lines of a run that returns carry, in order, the
    times 0.0, 0.0 + time_step, (0.0 + time_step) + time_step, ... (each
    sum rounded), the first one always 0.0, and every one of them the
    flow rate the pump was given. *)
Theorem simulate_system_columns
    (fuel : nat) (duration time_step : double) w w' :
  simulate_system usleep pow fuel duration time_step w = Some w' ->
  exists n : nat,
    observation_lines (stdout w') = (observation_lines (stdout w) + n)%nat /\
    row_times (stdout w') =
      row_times (stdout w) ++ map (clock time_step zero) (seq 0 n) /\
    row_flow_rates (stdout w') =
      row_flow_rates (stdout w) ++ repeat (flow_rate (pump w)) n.
Proof.
  intros Hrun. apply simulate_system_summary in Hrun.
  destruct Hrun as (n & _ & _ & _ & _ & _ & Hl & Ht & Hf).
  exists n. repeat split; assumption.
Qed.

End RunProperties.

Lemma simulate_system_no_pass_witness :
  simulate_system no_sleep pow_square 1 zero (of_Z 1) main_world =
    Some (with_stdout [header_titles; header_rule] main_world).
Proof.
  apply (@simulate_system_no_pass unit no_sleep pow_square 0 zero (of_Z 1)
           main_world).
  reflexivity.
Defined.

Lemma simulate_system_same_parameters_witness :
  exists w' : World unit,
    simulate_system no_sleep pow_square 10 (of_Z 3) (of_Z 1) main_world
      = Some w' /\
    same_parameters main_world w'.
Proof.
  assert (Hrun : exists w' : World unit,
            simulate_system no_sleep pow_square 10 (of_Z 3) (of_Z 1)
              main_world = Some w')
    by (eexists; vm_compute; reflexivity).
  destruct Hrun as [w' Hrun]. exists w'. split; [exact Hrun|].
  exact (@simulate_system_same_parameters unit no_sleep pow_square 10
           (of_Z 3) (of_Z 1) main_world w' Hrun).
Defined.

Lemma simulate_system_pacing_witness :
  exists w' : World (list double),
    simulate_system recording_sleep pow_square 10 (of_Z 3) (of_Z 1)
      main_world_recording = Some w' /\
    host w' = [of_Z 1000000; of_Z 1000000; of_Z 1000000].
Proof.
  assert (Hrun : exists w' : World (list double),
            simulate_system recording_sleep pow_square 10 (of_Z 3) (of_Z 1)
              main_world_recording = Some w' /\
            observation_lines (stdout w') = 3%nat)
    by (eexists; split; vm_compute; reflexivity).
  destruct Hrun as (w' & Hrun & H3).
  destruct (@simulate_system_pacing (list double) recording_sleep pow_square
              10 (of_Z 3) (of_Z 1) main_world_recording w' Hrun)
    as (n & Hl & Hh).
  exists w'. split; [exact Hrun|].
  assert (Hn : n = 3%nat) by (cbn in Hl; lia).
  rewrite Hh, Hn. reflexivity.
Defined.

Lemma simulate_system_columns_witness :
  exists w' : World unit,
    simulate_system no_sleep pow_square 10 (of_Z 3) (of_Z 1) main_world
      = Some w' /\
    row_times (stdout w') = [zero; of_Z 1; of_Z 2] /\
    row_flow_rates (stdout w') = [decimal 1 2; decimal 1 2; decimal 1 2].
Proof.
  assert (Hrun : exists w' : World unit,
            simulate_system no_sleep pow_square 10 (of_Z 3) (of_Z 1)
              main_world = Some w' /\
            observation_lines (stdout w') = 3%nat)
    by (eexists; split; vm_compute; reflexivity).
  destruct Hrun as (w' & Hrun & H3).
  destruct (@simulate_system_columns unit no_sleep pow_square
              10 (of_Z 3) (of_Z 1) main_world w' Hrun)
    as (n & Hl & Ht & Hf).
  exists w'. split; [exact Hrun|].
  assert (Hn : n = 3%nat) by (cbn in Hl; lia).
  rewrite Ht, Hf, Hn. split; reflexivity.
Defined.

(** ** What decides the number of passes *)

Section LoopControl.

Variable Host : Type.
Variable usleep : double -> Host -> Host.
Variable pow : double -> double -> double.
Implicit Type w : World Host.

(** The rows a loop prints are counted by [passes], which never looks at
    the records. *)
Lemma simulate_loop_passes (fuel : nat) :
  forall (duration time_step t : double) w,
    option_map (fun w' => observation_lines (stdout w'))
      (simulate_loop usleep pow fuel duration time_step t w) =
    option_map (fun n => (observation_lines (stdout w) + n)%nat)
      (passes fuel duration time_step t).
Proof.
  induction fuel as [|fuel IH]; intros duration time_step t w;
    cbn [simulate_loop passes]; [reflexivity|].
  destruct (t < duration); cbn [option_map].
  - rewrite loop_body_run, IH. cbn [stdout].
    rewrite observation_lines_app, update_tank_no_row.
    destruct (passes fuel duration time_step (t + time_step));
      cbn [option_map observation_lines filter is_row List.length];
      [f_equal; lia | reflexivity].
  - f_equal. lia.
Qed.

Lemma simulate_system_passes_count
    (fuel : nat) (duration time_step : double) w :
  option_map (fun w' => (observation_lines (stdout w')
                         - observation_lines (stdout w))%nat)
    (simulate_system usleep pow fuel duration time_step w) =
  passes fuel duration time_step zero.
Proof.
  unfold simulate_system.
  pose proof (simulate_loop_passes fuel duration time_step zero
                (exec (bind (printf header_titles)
                            (fun _ => printf header_rule)) w)) as H.
  destruct (simulate_loop usleep pow fuel duration time_step zero _)
    as [w'|]; destruct (passes fuel duration time_step zero) as [n|];
    cbn [option_map] in *; try discriminate; [|reflexivity].
  injection H as H. f_equal. rewrite H.
  cbn [exec bind printf modify snd stdout].
  rewrite !observation_lines_app.
  cbn [observation_lines filter is_row header_titles header_rule
       List.length]. lia.
Qed.

End LoopControl.

(** X9. Whether [simulate_system] returns, and how many observation
    lines it prints, is decided by the fuel, the duration and the time
    step alone: two runs with these in common print the same number of
    lines whatever their pumps, pipes, tanks, sleepers and [pow] are.  In
    particular a full tank does not end a run, and neither does a pump
    that cannot lift. *)
Theorem simulate_system_lines_any_records
    (Host1 Host2 : Type)
    (usleep1 : double -> Host1 -> Host1)
    (usleep2 : double -> Host2 -> Host2)
    (pow1 pow2 : double -> double -> double)
    (fuel : nat) (duration time_step : double)
    (w1 : World Host1) (w2 : World Host2) :
  option_map (fun w' => (observation_lines (stdout w')
                         - observation_lines (stdout w1))%nat)
    (simulate_system usleep1 pow1 fuel duration time_step w1) =
  option_map (fun w' => (observation_lines (stdout w')
                         - observation_lines (stdout w2))%nat)
    (simulate_system usleep2 pow2 fuel duration time_step w2).
Proof. rewrite !simulate_system_passes_count. reflexivity. Qed.

(** ** A pump that cannot lift *)

Section Blocked.

Variable Host : Type.
Variable usleep : double -> Host -> Host.
Variable pow : double -> double -> double.
Implicit Type w : World Host.

Lemma no_flow_lines_app (out out' : list printf_call) :
  no_flow_lines (out ++ out') = (no_flow_lines out + no_flow_lines out')%nat.
Proof. unfold no_flow_lines. rewrite filter_app. apply length_app. Qed.

Lemma simulate_loop_blocked (fuel : nat) :
  forall (duration time_step t : double) w w',
    (head (pump w) < head_loss_now pow w) = true ->
    simulate_loop usleep pow fuel duration time_step t w = Some w' ->
    tank w' = tank w /\
    pump w' = pump w /\
    (no_flow_lines (stdout w') - no_flow_lines (stdout w) =
     observation_lines (stdout w') - observation_lines (stdout w))%nat /\
    (no_flow_lines (stdout w) <= no_flow_lines (stdout w'))%nat /\
    (observation_lines (stdout w) <= observation_lines (stdout w'))%nat.
Proof.
  induction fuel as [|fuel IH]; intros duration time_step t w w' Hblock;
    cbn [simulate_loop]; [discriminate|].
  destruct (t < duration).
  - rewrite loop_body_run, update_tank_run, Hblock.
    intros Hrun. apply IH in Hrun.
    + cbn [tank pump stdout after_no_flow with_stdout with_velocity] in Hrun.
      destruct Hrun as (Ht & Hp & Hc & Hn & Ho).
      rewrite !no_flow_lines_app, !observation_lines_app in *.
      cbn [no_flow_lines observation_lines filter is_no_flow is_row
           no_flow_notice List.length] in *.
      rewrite String.eqb_refl in *.
      cbn [List.length] in *.
      repeat split; try assumption; lia.
    + exact Hblock.
  - intros Hrun. injection Hrun as <-. repeat split; lia.
Qed.

(** X10. When the pump's head is below the head loss at the start of a
    run, it is at every tick: a run that returns has left the tank (so
    the level) and the pump (so the power) as they were, and has printed
    one no-flow notice for each observation line. *)
Theorem simulate_system_blocked
    (fuel : nat) (duration time_step : double) w w' :
  (head (pump w) < head_loss_now pow w) = true ->
  simulate_system usleep pow fuel duration time_step w = Some w' ->
  tank w' = tank w /\
  pump w' = pump w /\
  (no_flow_lines (stdout w') - no_flow_lines (stdout w) =
   observation_lines (stdout w') - observation_lines (stdout w))%nat.
Proof.
  intros Hblock Hrun. unfold simulate_system in Hrun.
  apply simulate_loop_blocked in Hrun.
  - cbn [exec bind printf modify snd tank pump stdout] in Hrun.
    rewrite !no_flow_lines_app, !observation_lines_app in Hrun.
    cbn [no_flow_lines observation_lines filter is_no_flow is_row
         header_titles header_rule List.length] in Hrun.
    change (String.eqb _ no_flow_text) with false in Hrun.
    cbn [List.length] in Hrun.
    destruct Hrun as (Ht & Hp & Hc & Hn & Ho).
    repeat split; try assumption; lia.
  - exact Hblock.
Qed.

End Blocked.

Lemma simulate_system_blocked_witness :
  exists w' : World unit,
    simulate_system no_sleep pow_square 10 (of_Z 3) (of_Z 1) weak_pump_world
      = Some w' /\
    water_level (tank w') = zero /\
    power (pump w') = zero.
Proof.
  assert (Hrun : exists w' : World unit,
            simulate_system no_sleep pow_square 10 (of_Z 3) (of_Z 1)
              weak_pump_world = Some w')
    by (eexists; vm_compute; reflexivity).
  destruct Hrun as [w' Hrun].
  destruct (@simulate_system_blocked unit no_sleep pow_square 10
              (of_Z 3) (of_Z 1) weak_pump_world w') as (Ht & Hp & _).
  - vm_compute. reflexivity.
  - exact Hrun.
  - exists w'. split; [exact Hrun|]. rewrite Ht, Hp. split; reflexivity.
Defined.

(** ** A time step that does not advance the clock *)

Section Stalled.

Lemma le_zero_not_positive (x : double) :
  (x <= zero) = true -> not_positive x = true.
Proof.
  unfold le, SFleb, zero.
  destruct x as [s|s| |s m e]; simpl; try (destruct s; simpl); congruence.
Qed.

Lemma not_positive_lt (t d : double) :
  not_positive t = true -> (zero < d) = true -> (t < d) = true.
Proof.
  unfold lt, SFltb, zero.
  destruct t as [st|st| |st mt et], d as [sd|sd| |sd md ed]; simpl;
    try discriminate; intros Ht Hd; subst;
    try (destruct sd; try discriminate; reflexivity).
Qed.

Lemma round_aux_not_positive (m e : Z) (l : location) :
  (0 <= m)%Z ->
  not_positive (binary_round_aux prec emax true m e l) = true.
Proof.
  intros Hm.
  generalize (round_aux_sign true m e l) (round_aux_not_nan true e l Hm).
  destruct (binary_round_aux prec emax true m e l); simpl;
    intros H Hn; try rewrite H; try reflexivity; discriminate.
Qed.

Lemma normalize_neg (p : positive) (e : Z) :
  not_positive (binary_normalize prec emax (Z.neg p) e false) = true.
Proof.
  simpl. unfold binary_round.
  destruct (shl_align p e _) as [mz ez].
  apply round_aux_not_positive. lia.
Qed.

Lemma add_not_positive (x y : double) :
  not_positive x = true -> not_positive y = true ->
  not_positive (x + y) = true.
Proof.
  destruct x as [sx|sx| |sx mx ex], y as [sy|sy| |sy my ey]; simpl;
    try discriminate; try reflexivity; intros Hx Hy; subst;
    try reflexivity;
    try (destruct sx, sy; reflexivity).
  apply normalize_neg.
Qed.

Variable Host : Type.
Variable usleep : double -> Host -> Host.
Variable pow : double -> double -> double.
Implicit Type w : World Host.

Lemma simulate_loop_stalled (fuel : nat) :
  forall (duration time_step t : double) w,
    not_positive time_step = true -> (zero < duration) = true ->
    not_positive t = true ->
    simulate_loop usleep pow fuel duration time_step t w = None.
Proof.
  induction fuel as [|fuel IH]; intros duration time_step t w Hdt Hd Ht;
    cbn [simulate_loop]; [reflexivity|].
  rewrite (not_positive_lt _ _ Ht Hd), loop_body_run.
  apply IH; try assumption. apply add_not_positive; assumption.
Qed.

(** X5. With a time step that is zero or negative and a positive
    duration the clock never reaches the duration (it stays at zero or
    moves away from it), and the loop of [simulate_system] does not end:
    no amount of fuel yields a result.  The source does not look at the
    time step before it enters the loop. *)
Theorem simulate_system_never_returns
    (fuel : nat) (duration time_step : double) w :
  (time_step <= zero) = true ->
  (zero < duration) = true ->
  simulate_system usleep pow fuel duration time_step w = None.
Proof.
  intros Hdt Hd. unfold simulate_system.
  apply simulate_loop_stalled; try assumption.
  - apply le_zero_not_positive, Hdt.
  - reflexivity.
Qed.

End Stalled.

Lemma simulate_system_never_returns_witness :
  simulate_system no_sleep pow_square 50 (of_Z 60) (of_Z (-1)) main_world
    = None /\
  simulate_system no_sleep pow_square 50 (of_Z 60) zero main_world = None.
Proof.
  split.
  - apply (@simulate_system_never_returns unit no_sleep pow_square 50
             (of_Z 60) (of_Z (-1)) main_world); reflexivity.
  - apply (@simulate_system_never_returns unit no_sleep pow_square 50
             (of_Z 60) zero main_world); reflexivity.
Defined.

(** * The sign of the head loss *)

Section HeadLossSign.

Lemma div_sign_clear (x y : double) :
  sign_clear x = true -> sign_clear y = true -> sign_clear (x / y) = true.
Proof.
  destruct x as [sx|sx| |sx mx ex], y as [sy|sy| |sy my ey]; simpl;
    try reflexivity; intros Hx Hy;
    apply negb_true_iff in Hx; apply negb_true_iff in Hy; subst sx sy;
    try reflexivity.
  destruct (SFdiv_core_binary prec emax (Z.pos mx) ex (Z.pos my) ey)
    as [[mz ez] lz].
  generalize (round_aux_sign false mz ez lz). simpl.
  destruct (binary_round_aux _ _ _ _ _ _); simpl;
    intros H; try rewrite H; reflexivity.
Qed.

Lemma sign_clear_not_lt_zero (x : double) :
  sign_clear x = true -> (x < zero) = false.
Proof.
  unfold lt, SFltb, zero.
  destruct x as [s|s| |s m e]; simpl; try reflexivity;
    intros H; apply negb_true_iff in H; subst; reflexivity.
Qed.

(** The friction factor of a Reynolds number that is not negative is not
    negative, on both branches. *)
Lemma friction_factor_sign_clear (Re : double) :
  sign_clear Re = true -> sign_clear (calculate_friction_factor Re) = true.
Proof.
  intros H. unfold calculate_friction_factor.
  destruct (Re < of_Z 2000); [|reflexivity].
  apply div_sign_clear; [reflexivity | exact H].
Qed.

Variable Host : Type.
Variable pow : double -> double -> double.
Implicit Type w : World Host.

(** X11. With a flow rate, a length, a diameter and a density whose sign
    bits are clear (and [pow] returning squares whose sign bit is clear),
    the head loss [calculate_head_loss] returns is never below zero: it
    is a NaN or has its sign bit clear, so [head_loss < 0.0] is false. *)
Theorem head_loss_not_negative w (Q : double) :
  let D := diameter (pipe w) in
  let v := Q / (M_PI * pow (D / of_Z 2) (of_Z 2)) in
  sign_clear Q = true ->
  sign_clear (length (pipe w)) = true ->
  sign_clear D = true ->
  sign_clear (density (pipe w)) = true ->
  sign_clear (pow (D / of_Z 2) (of_Z 2)) = true ->
  sign_clear (pow v (of_Z 2)) = true ->
  sign_clear (eval (calculate_head_loss pow Q) w) = true /\
  (eval (calculate_head_loss pow Q) w < zero) = false.
Proof.
  intros D v HQ HL HD Hrho HA Hv2.
  assert (H : sign_clear (eval (calculate_head_loss pow Q) w) = true).
  { unfold eval. rewrite calculate_head_loss_run.
    unfold fst, darcy_weisbach, pipe_area. fold D. fold v.
    assert (Hv : sign_clear v = true).
    { apply div_sign_clear; [exact HQ|].
      apply mul_sign_clear; [reflexivity | exact HA]. }
    repeat first
      [ apply div_sign_clear | apply mul_sign_clear
      | apply friction_factor_sign_clear | assumption | reflexivity ]. }
  split; [exact H | apply sign_clear_not_lt_zero, H].
Qed.

End HeadLossSign.

Lemma head_loss_not_negative_witness :
  (eval (calculate_head_loss pow_square (decimal 1 2)) main_world < zero)
    = false.
Proof.
  apply (@head_loss_not_negative unit pow_square main_world (decimal 1 2));
    reflexivity.
Defined.

(** * Addition never goes below its operand *)

Section AddMonotone.

Lemma fexp_eq (z : Z) : fexp prec emax z = Z.max (z - 53) (-1074).
Proof. reflexivity. Qed.

Lemma shr_1_lower (c : Z) (mrs : shr_record) :
  (c * 2 <= shr_m mrs)%Z -> (0 <= shr_m mrs)%Z ->
  (c <= shr_m (shr_1 mrs))%Z.
Proof.
  destruct mrs as [m r s]; simpl.
  destruct m as [|p|p]; simpl; intros H H0; try lia;
    destruct p; simpl; lia.
Qed.

Lemma iter_shr_1_lower (p : positive) :
  forall (c : Z) (mrs : shr_record),
    (c * 2 ^ Z.pos p <= shr_m mrs)%Z -> (0 <= shr_m mrs)%Z ->
    (c <= shr_m (iter_pos shr_1 p mrs))%Z.
Proof.
  induction p as [p IH|p IH|]; intros c mrs H H0; cbn [iter_pos].
  - rewrite (Pos2Z.inj_xI p) in H.
    replace (2 * Z.pos p + 1)%Z with (Z.pos p + Z.pos p + 1)%Z in H by lia.
    rewrite !Z.pow_add_r, Z.pow_1_r in H by lia.
    apply IH; [|apply iter_shr_1_nonneg, shr_1_nonneg, H0].
    apply IH; [|apply shr_1_nonneg, H0].
    apply shr_1_lower; [|exact H0]. lia.
  - rewrite (Pos2Z.inj_xO p) in H.
    replace (2 * Z.pos p)%Z with (Z.pos p + Z.pos p)%Z in H by lia.
    rewrite !Z.pow_add_r in H by lia.
    apply IH; [|apply iter_shr_1_nonneg, H0].
    apply IH; [|exact H0]. lia.
  - apply shr_1_lower; [|exact H0]. exact H.
Qed.

(** A right shift by [n] places moves the exponent up by [n] and leaves
    at least [c] when the mantissa was at least [c * 2^n]. *)
Lemma shr_lower (mrs : shr_record) (e n : Z) :
  (0 <= shr_m mrs)%Z ->
  snd (shr mrs e n) = (e + Z.max n 0)%Z /\
  forall c : Z,
    (c * 2 ^ Z.max n 0 <= shr_m mrs)%Z -> (c <= shr_m (fst (shr mrs e n)))%Z.
Proof.
  intros H0. destruct n as [|p|p]; cbn [shr fst snd].
  - split; [lia|]. intros c H. cbn in H. lia.
  - split; [lia|]. intros c H.
    replace (Z.max (Z.pos p) 0) with (Z.pos p) in H by lia.
    apply iter_shr_1_lower; assumption.
  - split; [lia|]. intros c H.
    replace (Z.max (Z.neg p) 0) with 0%Z in H by lia.
    cbn in H. lia.
Qed.

Lemma round_nearest_even_ge (m : Z) (l : location) :
  (m <= round_nearest_even m l)%Z.
Proof.
  destruct l as [|[ | | ]]; simpl; try lia.
  destruct (Z.even m); lia.
Qed.

Lemma digits_lower (mx M : positive) (j : Z) :
  (0 <= j)%Z -> (Z.pos mx * 2 ^ j <= Z.pos M)%Z ->
  (Z.pos (digits2_pos mx) + j <= Z.pos (digits2_pos M))%Z.
Proof.
  intros Hj H.
  pose proof (digits2_pos_bounds mx) as [Hlo _].
  pose proof (digits2_pos_bounds M) as [_ Hhi].
  assert (Hpow : (2 ^ (Z.pos (digits2_pos mx) - 1 + j)
                  < 2 ^ Z.pos (digits2_pos M))%Z).
  { rewrite Z.pow_add_r by lia.
    assert (0 < 2 ^ j)%Z by (apply Z.pow_pos_nonneg; lia). nia. }
  apply Z.pow_lt_mono_r_iff in Hpow; lia.
Qed.

Lemma pow_le_of_digits (q : positive) (k : Z) :
  (k < Z.pos (digits2_pos q))%Z -> (2 ^ k <= Z.pos q)%Z.
Proof.
  intros Hk. pose proof (digits2_pos_bounds q) as [Hlo _].
  destruct (Z.le_gt_cases 0 k) as [H0|H0].
  - apply Z.le_trans with (2 := Hlo). apply Z.pow_le_mono_r; lia.
  - rewrite Z.pow_neg_r by lia. lia.
Qed.

Lemma canonical_fexp (m : positive) (e : Z) :
  bounded prec emax m e = true ->
  Z.max (Z.pos (digits2_pos m) + e - 53) (-1074) = e.
Proof.
  unfold bounded, canonical_mantissa. intros H.
  apply andb_true_iff in H. destruct H as [H _].
  apply Z.eqb_eq in H. rewrite fexp_eq in H. exact H.
Qed.

(** Rounding a mantissa that is at least the mantissa of a canonical
    double, at the same scale, does not go below that double. *)
Lemma binary_round_ge (mx : positive) (ex : Z) (M : positive) (ez : Z) :
  bounded prec emax mx ex = true ->
  (ez <= ex)%Z ->
  (Z.pos mx * 2 ^ (ex - ez) <= Z.pos M)%Z ->
  (S754_finite false mx ex <= binary_round prec emax false M ez) = true.
Proof.
  intros Hb Hez HM.
  pose proof (@canonical_fexp mx ex Hb) as Hcan.
  pose proof (@digits_lower mx M (ex - ez) ltac:(lia) HM) as Hd.
  set (dM := Z.pos (digits2_pos M)) in *.
  set (dx := Z.pos (digits2_pos mx)) in *.
  assert (Hdx : (0 < dx)%Z) by (unfold dx; lia).
  set (e1 := Z.max (dM + ez - 53) (-1074)).
  assert (He1 : (ex <= e1)%Z) by (unfold e1; lia).
  assert (Hpk : (0 < 2 ^ (ex - ez))%Z) by (apply Z.pow_pos_nonneg; lia).
  (* the mantissa is not shifted left *)
  unfold binary_round. rewrite fexp_eq. fold dM. fold e1.
  assert (Hal : shl_align M ez e1 = (M, ez)).
  { unfold shl_align. destruct (e1 - ez)%Z eqn:E; try reflexivity. lia. }
  rewrite Hal.
  (* first shift *)
  unfold binary_round_aux, shr_fexp.
  cbn [Zdigits2 shr_record_of_loc]. rewrite fexp_eq. fold dM. fold e1.
  destruct (@shr_lower {| shr_m := Z.pos M; shr_r := false; shr_s := false |}
              ez (e1 - ez)) as [Hs1 Hl1]; [cbn; lia|].
  destruct (shr {| shr_m := Z.pos M; shr_r := false; shr_s := false |}
              ez (e1 - ez)) as [mrs' e'].
  cbn [fst snd shr_m] in Hs1, Hl1.
  replace (Z.max (e1 - ez) 0) with (e1 - ez)%Z in * by lia.
  subst e'. replace (ez + (e1 - ez))%Z with e1 in * by lia.
  assert (Hm1 : (1 <= shr_m mrs')%Z).
  { apply Hl1. rewrite Z.mul_1_l.
    destruct (Z.eq_dec e1 (dM + ez - 53)) as [E|E].
    - apply pow_le_of_digits. fold dM. lia.
    - assert (ex = e1) by (unfold e1 in *; lia). subst e1.
      replace (Z.max (dM + ez - 53) (-1074) - ez)%Z with (ex - ez)%Z by lia.
      nia. }
  assert (Hmx : (ex = e1 -> Z.pos mx <= shr_m mrs')%Z).
  { intros E. apply Hl1. rewrite <- E. exact HM. }
  (* rounding, second shift *)
  pose proof (round_nearest_even_ge (shr_m mrs') (loc_of_shr_record mrs'))
    as Hr.
  set (m1 := round_nearest_even (shr_m mrs') (loc_of_shr_record mrs')) in *.
  destruct m1 as [|q|q] eqn:Eq1; try lia.
  cbn [Zdigits2 shr_record_of_loc]. rewrite fexp_eq.
  set (k2 := (Z.max (Z.pos (digits2_pos q) + e1 - 53) (-1074) - e1)%Z).
  destruct (@shr_lower {| shr_m := Z.pos q; shr_r := false; shr_s := false |}
              e1 k2) as [Hs2 Hl2]; [cbn; lia|].
  destruct (shr {| shr_m := Z.pos q; shr_r := false; shr_s := false |}
              e1 k2) as [mrs'' e''].
  cbn [fst snd shr_m] in Hs2, Hl2.
  assert (Hm2 : (1 <= shr_m mrs'')%Z).
  { apply Hl2. rewrite Z.mul_1_l.
    destruct (Z.le_gt_cases k2 0) as [K|K].
    - replace (Z.max k2 0) with 0%Z by lia. cbn. lia.
    - replace (Z.max k2 0) with k2 by lia.
      apply pow_le_of_digits. unfold k2 in *. lia. }
  assert (Hmx2 : (ex = e'' -> Z.pos mx <= shr_m mrs'')%Z).
  { intros E. assert (K : Z.max k2 0 = 0%Z) by lia.
    apply Hl2. rewrite K, Z.mul_1_r. assert (ex = e1) by lia. lia. }
  destruct (shr_m mrs'') as [|m''|m''] eqn:Em; try lia.
  destruct (e'' <=? emax - prec)%Z; [|reflexivity].
  unfold le, SFleb, SFcompare.
  destruct (Z.compare_spec ex e'') as [E|E|E]; try reflexivity; try lia.
  specialize (Hmx2 E).
  change (Pos.compare_cont Eq mx m'') with (Pos.compare mx m'').
  destruct (Pos.compare_spec mx m'') as [C|C|C]; try reflexivity. lia.
Qed.

Lemma iter_xO (d m : positive) :
  Z.pos (Pos.iter xO m d) = (Z.pos m * 2 ^ Z.pos d)%Z.
Proof.
  induction d as [|d IH] using Pos.peano_ind.
  - cbn [Pos.iter]. rewrite (Pos2Z.inj_xO m). lia.
  - rewrite Pos.iter_succ, Pos2Z.inj_succ, Z.pow_succ_r by lia.
    rewrite (Pos2Z.inj_xO (Pos.iter xO m d)), IH. lia.
Qed.

Lemma shl_align_fst (mx : positive) (ex ez : Z) :
  (ez <= ex)%Z ->
  Z.pos (fst (shl_align mx ex ez)) = (Z.pos mx * 2 ^ (ex - ez))%Z.
Proof.
  intros H. unfold shl_align.
  destruct (ez - ex)%Z as [|d|d] eqn:E; cbn [fst]; try lia.
  - replace (ex - ez)%Z with 0%Z by lia. cbn. lia.
  - replace (ex - ez)%Z with (Z.pos d) by lia. apply iter_xO.
Qed.

(** [x <= x + y] when neither is below zero: no rounding of a sum takes
    it below a term that is a double. *)
Lemma add_ge_l (x y : double) :
  valid_binary prec emax x = true ->
  is_nan x = false -> is_nan y = false ->
  not_negative x = true -> not_negative y = true ->
  (x <= x + y) = true.
Proof.
  intros Vx Nx Ny Px Py.
  destruct x as [sx|sx| |sx mx ex], y as [sy|sy| |sy my ey];
    try discriminate; cbn [not_negative] in Px, Py;
    try (apply negb_true_iff in Px; subst sx);
    try (apply negb_true_iff in Py; subst sy);
    try reflexivity;
    try (destruct sx, sy; reflexivity);
    try (destruct sx; reflexivity).
  - apply le_refl. reflexivity.
  - cbn [valid_binary] in Vx.
    unfold add, SFadd, cond_Zopp, binary_normalize.
    set (ez := IntDef.Z.min ex ey).
    assert (Hez : ez = Z.min ex ey) by reflexivity.
    assert (Hx : (ez <= ex)%Z) by lia.
    pose proof (@shl_align_fst mx ex ez Hx) as Hfst.
    set (mx' := fst (shl_align mx ex ez)) in *.
    set (my' := fst (shl_align my ey ez)) in *.
    change (Z.pos mx' + Z.pos my')%Z with (Z.pos (mx' + my')).
    apply binary_round_ge; [exact Vx | exact Hx |].
    rewrite Pos2Z.inj_add, Hfst. lia.
Qed.

End AddMonotone.

(** * The level never falls *)

Section Monotone.

Variable Host : Type.
Variable pow : double -> double -> double.
Implicit Type w : World Host.

(** What a flowing tick computes is not below the level it starts from. *)
Lemma raised_level_ge w (time_step : double) :
  within_tank w -> steady_inflow pow time_step w ->
  valid_binary prec emax (water_level (tank w)) = true ->
  (water_level (tank w) <= raised_level pow time_step w) = true.
Proof.
  intros [Hlo Hhi] (HQ & Hdt & Hsq & Hinc) Hv.
  unfold raised_level. apply add_ge_l; try assumption.
  - apply le_zero_iff, Hlo.
  - apply le_zero_iff, Hlo.
  - apply level_increment_not_negative; assumption.
Qed.

(** The level a tick leaves is not below the level it found. *)
Lemma update_tank_level_ge w (time_step : double) :
  within_tank w ->
  steady_inflow pow time_step w ->
  valid_binary prec emax (water_level (tank w)) = true ->
  (water_level (tank w)
     <= water_level (tank (exec (update_tank pow time_step) w))) = true.
Proof.
  intros Hw Hin Hv.
  pose proof (raised_level_ge Hw Hin Hv) as Hge.
  destruct Hw as [Hlo Hhi].
  rewrite update_tank_run.
  destruct (head (pump w) < head_loss_now pow w).
  - apply le_refl. apply le_zero_iff, Hlo.
  - destruct (raised_level pow time_step w > height (tank w));
      cbn [after_flow tank water_level]; assumption.
Qed.

(** X12. One call of [update_tank] never lowers the level: from a level
    within the tank that is a canonical double, with a flow rate that is
    not negative, a positive time step and an increment that is a number,
    the level after the call is [>=] the level before it, on every
    branch, whatever the rounding of the sum. *)
Theorem update_tank_level_monotone w (time_step : double) :
  within_tank w ->
  steady_inflow pow time_step w ->
  valid_binary prec emax (water_level (tank w)) = true ->
  (water_level (tank w)
     <= water_level (tank (exec (update_tank pow time_step) w))) = true.
Proof. apply update_tank_level_ge. Qed.

(** X13. A full tank stays full: when the level is the height, it still
    compares equal to the height after a call of [update_tank], whether
    the pump lifts or not; a sum that is not above the height is not
    below it either. *)
Theorem update_tank_full_stays_full w (time_step : double) :
  water_level (tank w) = height (tank w) ->
  (zero <= height (tank w)) = true ->
  valid_binary prec emax (height (tank w)) = true ->
  steady_inflow pow time_step w ->
  let w' := exec (update_tank pow time_step) w in
  SFeqb (water_level (tank w')) (height (tank w')) = true.
Proof.
  intros Hfull Htop Hv Hin. cbv zeta.
  assert (Hnan : is_nan (height (tank w)) = false)
    by (apply le_zero_iff, Htop).
  assert (Hw : within_tank w).
  { split; rewrite Hfull; [exact Htop | apply le_refl, Hnan]. }
  assert (Hv' : valid_binary prec emax (water_level (tank w)) = true)
    by (rewrite Hfull; exact Hv).
  pose proof (raised_level_ge Hw Hin Hv') as Hge. rewrite Hfull in Hge.
  assert (Hrefl : SFeqb (height (tank w)) (height (tank w)) = true).
  { pose proof (le_refl _ Hnan) as Hle. pose proof (lt_irrefl (height (tank w))) as Hlt.
    unfold le, lt, SFleb, SFltb, SFeqb in *.
    destruct (SFcompare (height (tank w)) (height (tank w))) as [[ | | ]|];
      congruence. }
  rewrite update_tank_run.
  destruct (head (pump w) < head_loss_now pow w).
  - cbn [after_no_flow with_stdout with_velocity tank]. rewrite Hfull.
    exact Hrefl.
  - destruct (raised_level pow time_step w > height (tank w)) eqn:Hgt;
      cbn [after_flow tank water_level height]; [exact Hrefl|].
    unfold le, gt, SFleb, SFltb, SFeqb in *.
    rewrite (compare_antisym (height (tank w)) (raised_level pow time_step w)).
    destruct (SFcompare (height (tank w)) (raised_level pow time_step w))
      as [[ | | ]|]; simpl; congruence.
Qed.

End Monotone.

Lemma update_tank_level_monotone_witness :
  (zero <= water_level (tank (exec (update_tank pow_square (of_Z 1))
                                   main_world))) = true.
Proof.
  apply (@update_tank_level_monotone unit pow_square main_world (of_Z 1)).
  - vm_compute. split; reflexivity.
  - vm_compute. repeat split.
  - reflexivity.
Defined.

Lemma update_tank_full_stays_full_witness :
  let w' := exec (update_tank pow_square (of_Z 1)) full_tank_world in
  SFeqb (water_level (tank w')) (of_Z 5) = true.
Proof.
  apply (@update_tank_full_stays_full unit pow_square full_tank_world
           (of_Z 1)).
  - reflexivity.
  - reflexivity.
  - reflexivity.
  - vm_compute. repeat split.
Defined.

(** * A sum of doubles is a double *)

Section AddValid.

Lemma shr_1_upper (c : Z) (mrs : shr_record) :
  (shr_m mrs < c * 2)%Z -> (0 <= shr_m mrs)%Z ->
  (shr_m (shr_1 mrs) < c)%Z.
Proof.
  destruct mrs as [m r s]; simpl.
  destruct m as [|p|p]; simpl; intros H H0; try lia;
    destruct p; simpl; lia.
Qed.

Lemma iter_shr_1_upper (p : positive) :
  forall (c : Z) (mrs : shr_record),
    (shr_m mrs < c * 2 ^ Z.pos p)%Z -> (0 <= shr_m mrs)%Z ->
    (shr_m (iter_pos shr_1 p mrs) < c)%Z.
Proof.
  induction p as [p IH|p IH|]; intros c mrs H H0; cbn [iter_pos].
  - rewrite (Pos2Z.inj_xI p) in H.
    replace (2 * Z.pos p + 1)%Z with (Z.pos p + Z.pos p + 1)%Z in H by lia.
    rewrite !Z.pow_add_r, Z.pow_1_r in H by lia.
    apply IH; [|apply iter_shr_1_nonneg, shr_1_nonneg, H0].
    apply IH; [|apply shr_1_nonneg, H0].
    apply shr_1_upper; [|exact H0]. lia.
  - rewrite (Pos2Z.inj_xO p) in H.
    replace (2 * Z.pos p)%Z with (Z.pos p + Z.pos p)%Z in H by lia.
    rewrite !Z.pow_add_r in H by lia.
    apply IH; [|apply iter_shr_1_nonneg, H0].
    apply IH; [|exact H0]. lia.
  - apply shr_1_upper; [|exact H0]. exact H.
Qed.

Lemma round_nearest_even_le (m : Z) (l : location) :
  (round_nearest_even m l <= m + 1)%Z.
Proof.
  destruct l as [|[ | | ]]; simpl; try lia.
  destruct (Z.even m); lia.
Qed.

Lemma digits_unique (m : positive) (d : Z) :
  (2 ^ (d - 1) <= Z.pos m < 2 ^ d)%Z -> Z.pos (digits2_pos m) = d.
Proof.
  intros [Hlo Hhi].
  pose proof (digits2_pos_bounds m) as [Hlo' Hhi'].
  set (d' := Z.pos (digits2_pos m)) in *.
  assert (Hd' : (0 < d')%Z) by (unfold d'; lia).
  assert (Hd : (0 < d)%Z).
  { destruct (Z.lt_ge_cases 0 d) as [H|H]; [exact H|].
    destruct (Z.eq_dec d 0) as [->|Hne]; [cbn in Hhi; lia|].
    rewrite Z.pow_neg_r in Hhi by lia. lia. }
  destruct (Z.lt_trichotomy d d') as [H|[H|H]]; [|exact (eq_sym H)|].
  - assert (2 ^ d <= 2 ^ (d' - 1))%Z by (apply Z.pow_le_mono_r; lia). lia.
  - assert (2 ^ d' <= 2 ^ (d - 1))%Z by (apply Z.pow_le_mono_r; lia). lia.
Qed.

(** Rounding a mantissa that needs no left shift, at an exponent that is
    not below the least one, yields a canonical double. *)
Lemma round_aux_valid (m0 : positive) (e0 : Z) :
  (-1074 <= e0)%Z ->
  (e0 <= Z.max (Z.pos (digits2_pos m0) + e0 - 53) (-1074))%Z ->
  valid_binary prec emax
    (binary_round_aux prec emax false (Z.pos m0) e0 loc_Exact) = true.
Proof.
  intros He0 Hk.
  pose proof (digits2_pos_bounds m0) as [Hlo Hhi].
  set (d0 := Z.pos (digits2_pos m0)) in *.
  unfold binary_round_aux, shr_fexp.
  cbn [Zdigits2 shr_record_of_loc]. rewrite fexp_eq. fold d0.
  destruct (Z.max (d0 + e0 - 53) (-1074) - e0)%Z as [|p|p] eqn:E; try lia.
  - (* the mantissa fits *)
    cbn [shr shr_m loc_of_shr_record round_nearest_even Zdigits2
         shr_record_of_loc].
    rewrite fexp_eq. fold d0. rewrite E. cbn [shr shr_m].
    destruct (e0 <=? emax - prec)%Z eqn:L; [|reflexivity].
    cbn [valid_binary]. unfold bounded, canonical_mantissa.
    rewrite fexp_eq. fold d0. rewrite L, andb_true_r.
    apply Z.eqb_eq. lia.
  - (* it is shifted right by [p] places and rounded *)
    assert (Hp : Z.pos p = (d0 - 53)%Z) by lia.
    cbn [shr].
    set (rec0 := {| shr_m := Z.pos m0; shr_r := false; shr_s := false |}).
    assert (H0 : (0 <= shr_m rec0)%Z) by (cbn; lia).
    assert (Hl : (2 ^ 52 <= shr_m (iter_pos shr_1 p rec0))%Z).
    { apply iter_shr_1_lower; [|exact H0].
      rewrite <- Z.pow_add_r, Hp by lia.
      replace (52 + (d0 - 53))%Z with (d0 - 1)%Z by lia. exact Hlo. }
    assert (Hu : (shr_m (iter_pos shr_1 p rec0) < 2 ^ 53)%Z).
    { apply iter_shr_1_upper; [|exact H0].
      rewrite <- Z.pow_add_r, Hp by lia.
      replace (53 + (d0 - 53))%Z with d0 by lia. exact Hhi. }
    set (mrs' := iter_pos shr_1 p rec0) in *.
    pose proof (round_nearest_even_ge (shr_m mrs') (loc_of_shr_record mrs'))
      as Hr1.
    pose proof (round_nearest_even_le (shr_m mrs') (loc_of_shr_record mrs'))
      as Hr2.
    set (m1 := round_nearest_even (shr_m mrs') (loc_of_shr_record mrs')) in *.
    change (2 ^ 52)%Z with 4503599627370496%Z in *.
    change (2 ^ 53)%Z with 9007199254740992%Z in *.
    destruct m1 as [|q|q] eqn:Eq1; try lia.
    cbn [Zdigits2 shr_record_of_loc]. rewrite fexp_eq.
    set (e1 := (e0 + Z.pos p)%Z).
    assert (He1 : (-1074 <= e1)%Z) by (unfold e1; lia).
    destruct (Pos.eq_dec q 9007199254740992) as [Hq|Hq].
    + (* the rounding carried into a 54th bit *)
      subst q.
      change (Z.pos (digits2_pos 9007199254740992)) with 54%Z.
      replace (Z.max (54 + e1 - 53) (-1074) - e1)%Z with 1%Z by lia.
      cbn [shr iter_pos shr_1 shr_m].
      destruct (e1 + 1 <=? emax - prec)%Z eqn:L; [|reflexivity].
      cbn [valid_binary]. unfold bounded, canonical_mantissa.
      rewrite fexp_eq.
      change (Z.pos (digits2_pos 4503599627370496)) with 53%Z.
      rewrite L, andb_true_r. apply Z.eqb_eq. lia.
    + assert (Hd : Z.pos (digits2_pos q) = 53%Z).
      { apply digits_unique.
        change (2 ^ (53 - 1))%Z with 4503599627370496%Z.
        change (2 ^ 53)%Z with 9007199254740992%Z.
        assert (Z.pos q <> 9007199254740992%Z) by congruence. lia. }
      rewrite Hd.
      replace (Z.max (53 + e1 - 53) (-1074) - e1)%Z with 0%Z by lia.
      cbn [shr shr_m].
      destruct (e1 <=? emax - prec)%Z eqn:L; [|reflexivity].
      cbn [valid_binary]. unfold bounded, canonical_mantissa.
      rewrite fexp_eq, Hd, L, andb_true_r. apply Z.eqb_eq. lia.
Qed.

Lemma add_valid (x y : double) :
  valid_binary prec emax x = true -> valid_binary prec emax y = true ->
  not_negative x = true -> not_negative y = true ->
  valid_binary prec emax (x + y) = true.
Proof.
  intros Vx Vy Px Py.
  destruct x as [sx|sx| |sx mx ex], y as [sy|sy| |sy my ey];
    cbn [not_negative] in Px, Py;
    try (apply negb_true_iff in Px; subst sx);
    try (apply negb_true_iff in Py; subst sy);
    lazymatch goal with
    | |- context [S754_finite _ _ _ + S754_finite _ _ _] => idtac
    | _ => try reflexivity; try assumption;
           try (destruct sx, sy; reflexivity)
    end.
  cbn [valid_binary] in Vx, Vy.
  destruct (bounded_facts _ _ Vx) as (Hex & _ & _).
  destruct (bounded_facts _ _ Vy) as (Hey & _ & _).
  pose proof (@canonical_fexp mx ex Vx) as Hcan.
  unfold add, SFadd, cond_Zopp, binary_normalize.
  set (ez := IntDef.Z.min ex ey).
  assert (Hez : ez = Z.min ex ey) by reflexivity.
  assert (Hx : (ez <= ex)%Z) by lia.
  pose proof (@shl_align_fst mx ex ez Hx) as Hfst.
  set (mx' := fst (shl_align mx ex ez)) in *.
  set (my' := fst (shl_align my ey ez)) in *.
  change (Z.pos mx' + Z.pos my')%Z with (Z.pos (mx' + my')).
  set (M := (mx' + my')%positive).
  assert (HM : (Z.pos mx * 2 ^ (ex - ez) <= Z.pos M)%Z)
    by (unfold M; rewrite Pos2Z.inj_add, Hfst; lia).
  pose proof (@digits_lower mx M (ex - ez) ltac:(lia) HM) as Hd.
  unfold binary_round. rewrite fexp_eq.
  set (e1 := Z.max (Z.pos (digits2_pos M) + ez - 53) (-1074)).
  assert (He1 : (ez <= e1)%Z) by (unfold e1; lia).
  assert (Hal : shl_align M ez e1 = (M, ez)).
  { unfold shl_align. destruct (e1 - ez)%Z eqn:E; try reflexivity. lia. }
  rewrite Hal. apply round_aux_valid; [lia | exact He1].
Qed.

End AddValid.

(** * The level column never falls *)

Section RunMonotone.

Variable Host : Type.
Variable usleep : double -> Host -> Host.
Variable pow : double -> double -> double.
Implicit Type w : World Host.

Lemma update_tank_row_levels w (time_step : double) :
  row_levels (stdout (exec (update_tank pow time_step) w))
    = row_levels (stdout w).
Proof.
  destruct (update_tank_output pow w time_step) as (notices & Hn & ->).
  unfold row_levels. rewrite flat_map_app.
  destruct Hn as [->|[->| ->]];
    cbn [flat_map no_flow_notice overflow_notice app];
    rewrite app_nil_r; reflexivity.
Qed.

(** A tick keeps the level, the height and the increment canonical. *)
Lemma update_tank_canonical w (time_step : double) :
  within_tank w -> steady_inflow pow time_step w ->
  canonical_levels pow time_step w ->
  canonical_levels pow time_step (exec (update_tank pow time_step) w).
Proof.
  intros [Hlo Hhi] (HQ & Hdt & Hsq & Hinc) (Vl & Vh & Vi).
  pose proof (@level_increment_not_negative Host pow w time_step HQ Hdt Hsq)
    as Hpos.
  unfold canonical_levels, level_increment in *.
  rewrite update_tank_run.
  destruct (head (pump w) < head_loss_now pow w).
  - repeat split; assumption.
  - destruct (raised_level pow time_step w > height (tank w));
      cbn [after_flow tank pump water_level height radius flow_rate];
      repeat split; try assumption.
    apply add_valid; try assumption. apply le_zero_iff, Hlo.
Qed.

Lemma simulate_loop_levels (fuel : nat) :
  forall (duration time_step t : double) w w',
    within_tank w -> steady_inflow pow time_step w ->
    canonical_levels pow time_step w ->
    simulate_loop usleep pow fuel duration time_step t w = Some w' ->
    exists levels,
      row_levels (stdout w') = row_levels (stdout w) ++ levels /\
      nondecreasing (water_level (tank w) :: levels).
Proof.
  induction fuel as [|fuel IH];
    intros duration time_step t w w' Hw Hin Hcan;
    cbn [simulate_loop]; [discriminate|].
  destruct (t < duration).
  - rewrite loop_body_run.
    destruct (update_tank_within Hw Hin) as (Hw1 & Hin1 & _).
    pose proof (update_tank_canonical Hw Hin Hcan) as Hcan1.
    pose proof (update_tank_level_ge Hw Hin (proj1 Hcan)) as Hge.
    pose proof (update_tank_row_levels w time_step) as Hrows.
    set (w1 := exec (update_tank pow time_step) w) in *.
    intros Hrun. apply IH in Hrun; try assumption.
    destruct Hrun as (levels & Hout & Hsorted).
    cbn [stdout tank] in Hout, Hsorted.
    exists (water_level (tank w1) :: levels). split.
    + rewrite Hout. unfold row_levels at 1. rewrite flat_map_app.
      fold (row_levels (stdout w1)). rewrite Hrows.
      cbn [flat_map app]. rewrite <- app_assoc. reflexivity.
    + split; assumption.
  - intros Hrun. injection Hrun as <-. exists [].
    split; [symmetry; apply app_nil_r | exact I].
Qed.

(** X14. Over a whole run the level column never falls: the levels of
    the observation lines a run prints are each [>=] the one before, the
    first [>=] the level the run started from.  This needs the level to
    start within the tank, a flow rate that is not negative, a positive
    time step and an increment that is a number. *)
Theorem simulate_system_levels_nondecreasing
    (fuel : nat) (duration time_step : double) w w' :
  within_tank w ->
  steady_inflow pow time_step w ->
  canonical_levels pow time_step w ->
  simulate_system usleep pow fuel duration time_step w = Some w' ->
  exists levels,
    row_levels (stdout w') = row_levels (stdout w) ++ levels /\
    nondecreasing (water_level (tank w) :: levels).
Proof.
  intros Hw Hin Hcan Hrun. unfold simulate_system in Hrun.
  apply simulate_loop_levels in Hrun; try assumption.
  destruct Hrun as (levels & Hout & Hsorted).
  exists levels. split; [|exact Hsorted].
  rewrite Hout. cbn [exec bind printf modify snd stdout].
  unfold row_levels. rewrite !flat_map_app.
  cbn [flat_map header_titles header_rule app]. rewrite !app_nil_r.
  reflexivity.
Qed.

End RunMonotone.

Lemma simulate_system_levels_nondecreasing_witness :
  exists (w' : World unit) (levels : list double),
    simulate_system no_sleep pow_square 10 (of_Z 3) (of_Z 1) main_world
      = Some w' /\
    row_levels (stdout w') = levels /\
    nondecreasing (zero :: levels).
Proof.
  assert (Hrun : exists w' : World unit,
            simulate_system no_sleep pow_square 10 (of_Z 3) (of_Z 1)
              main_world = Some w')
    by (eexists; vm_compute; reflexivity).
  destruct Hrun as [w' Hrun].
  destruct (@simulate_system_levels_nondecreasing unit no_sleep pow_square
              10 (of_Z 3) (of_Z 1) main_world w') as (levels & Hout & Hs).
  - vm_compute. split; reflexivity.
  - vm_compute. repeat split.
  - vm_compute. repeat split.
  - exact Hrun.
  - exists w', levels. split; [exact Hrun|]. split; [exact Hout | exact Hs].
Defined.

(** * Degenerate time steps and Reynolds numbers *)

Section OnePass.

Variable Host : Type.
Variable usleep : double -> Host -> Host.
Variable pow : double -> double -> double.
Implicit Type w : World Host.

(** X15. With a time step that is NaN or plus infinity and a positive
    duration the loop makes exactly one pass: the clock leaves 0.0 for a
    value that is not below any duration, and [simulate_system] returns
    after one observation line. *)
Theorem simulate_system_one_pass
    (fuel : nat) (duration time_step : double) w :
  (is_nan time_step = true \/ time_step = pinf) ->
  (zero < duration) = true ->
  exists w',
    simulate_system usleep pow (S (S fuel)) duration time_step w = Some w' /\
    observation_lines (stdout w') = (observation_lines (stdout w) + 1)%nat.
Proof.
  intros Hdt Hd.
  apply (@simulate_system_passes Host usleep pow 1 (S (S fuel))
           duration time_step w).
  - intros [|k] Hk; [exact Hd | lia].
  - cbn [clock]. destruct Hdt as [Hnan| ->].
    + destruct time_step; try discriminate. reflexivity.
    + destruct duration as [s|s| |s m e]; try reflexivity;
        destruct s; reflexivity.
  - lia.
Qed.

End OnePass.

Lemma simulate_system_one_pass_witness :
  exists w',
    simulate_system no_sleep pow_square 2 (of_Z 60) nan main_world
      = Some w' /\
    observation_lines (stdout w') = 1%nat.
Proof.
  apply (@simulate_system_one_pass unit no_sleep pow_square 0 (of_Z 60) nan
           main_world).
  - left. reflexivity.
  - reflexivity.
Defined.

Section FrictionTotal.

Lemma shiftl_nonneg (m s : Z) : (0 <= m)%Z -> (0 <= Z.shiftl m s)%Z.
Proof. intros H. apply Z.shiftl_nonneg. exact H. Qed.

(** The quotient of two finite doubles is never a NaN. *)
Lemma div_finite_not_nan (sx sy : bool) (mx my : positive) (ex ey : Z) :
  is_nan (S754_finite sx mx ex / S754_finite sy my ey) = false.
Proof.
  unfold div, SFdiv, SFdiv_core_binary.
  set (s := (ex - ey - _)%Z).
  set (m' := match s with
             | 0%Z => Z.pos mx
             | Z.pos _ => Z.shiftl (Z.pos mx) s
             | Z.neg _ => 0%Z
             end).
  assert (Hm' : (0 <= m')%Z).
  { unfold m'. destruct s; try lia. apply shiftl_nonneg. lia. }
  pose proof (Z.div_pos m' (Z.pos my) Hm' ltac:(lia)) as Hq.
  unfold Z.div in Hq.
  destruct (Z.div_eucl m' (Z.pos my)) as [q r]. cbn [fst] in Hq.
  apply round_aux_not_nan. exact Hq.
Qed.

(** X16. [calculate_friction_factor] never returns a NaN, whatever it
    is given: a Reynolds number that is NaN fails the test [Re < 2000]
    and takes the turbulent branch, which returns 0.02; and 64.0 divided
    by a number is a number (an infinity when the number is a zero). *)
Theorem friction_factor_never_nan (Re : double) :
  is_nan (calculate_friction_factor Re) = false /\
  (is_nan Re = true -> calculate_friction_factor Re = decimal 2 2).
Proof.
  unfold calculate_friction_factor. split.
  - destruct (Re < of_Z 2000) eqn:Hlt; [|reflexivity].
    destruct Re as [s|s| |s m e]; try discriminate; try reflexivity.
    change (of_Z 64) with (S754_finite false 4503599627370496 (-46)).
    apply div_finite_not_nan.
  - intros Hnan. destruct Re; try discriminate. reflexivity.
Qed.

End FrictionTotal.

Lemma friction_factor_never_nan_witness :
  calculate_friction_factor nan = decimal 2 2.
Proof.
  apply (proj2 (friction_factor_never_nan nan)). reflexivity.
Defined.
